(** * shieldcheck-react: the URL scanner widget and the analysis page

    A shallow embedding of
      - [src/components/url-scanner.tsx] (camera capture, text
        recognition, URL extraction),
      - the analysis page that talks to the remote endpoint
        ([handleSubmit] and its response mapping),
      - the mock page [src/app/page.tsx] and the server action stub
        [src/app/actions.ts].

    JavaScript strings are sequences of UTF-16 code units: [list N].
    React state is a record; an event handler is a closure over the
    values of the render it was created in, so every handler takes that
    render's record (its reads) and threads the world (its writes, the
    device and what the user observes) through a small monad. *)

From Stdlib Require Import NArith ZArith Lia List Bool Ascii String DecimalString.
From Stdlib Require QArith.
From stdpp Require Import base decidable option list sets gmap.

Local Open Scope N_scope.

(* ===================================================================== *)
(** ** JavaScript strings *)
(* ===================================================================== *)

Module JS.

(** A string value: its UTF-16 code units. *)
Definition jsstring := list N.

(** A source literal (the literals of this program are ASCII). *)
Definition lit (s : string) : jsstring :=
  List.map N_of_ascii (list_ascii_of_string s).

Definition unit_eqb (a b : N) : bool := N.eqb a b.

Fixpoint str_eqb (a b : jsstring) : bool :=
  match a, b with
  | [], [] => true
  | x :: a', y :: b' => unit_eqb x y && str_eqb a' b'
  | _, _ => false
  end.

(** [s.startsWith(p)] with the rest of [s] after [p]. *)
Fixpoint strip_prefix (p s : jsstring) : option jsstring :=
  match p with
  | [] => Some s
  | x :: p' =>
      match s with
      | [] => None
      | y :: s' => if unit_eqb x y then strip_prefix p' s' else None
      end
  end.

(** [s.includes(sub)]: [sub] occurs at some index of [s]. *)
Fixpoint includes (s sub : jsstring) : bool :=
  match strip_prefix sub s with
  | Some _ => true
  | None => match s with
            | [] => false
            | _ :: s' => includes s' sub
            end
  end.

(** Truthiness of a [string | null] value: [null] and the empty string
    are falsy. *)
Definition truthy (v : option jsstring) : bool :=
  match v with
  | Some (_ :: _) => true
  | _ => false
  end.

(** The class [\s] of ECMAScript: WhiteSpace and LineTerminator code
    points (all of them in the basic plane, so one code unit each). *)
Definition is_space (c : N) : bool :=
  (c =? 9) || (c =? 10) || (c =? 11) || (c =? 12) || (c =? 13)
  || (c =? 32) || (c =? 160) || (c =? 5760)
  || ((8192 <=? c) && (c <=? 8202))
  || (c =? 8232) || (c =? 8233) || (c =? 8239) || (c =? 8287)
  || (c =? 12288) || (c =? 65279).

(** *** Regular expressions, as far as this program writes them *)

(** A matcher of one code unit. *)
Inductive atom :=
  | Chr (c : N)      (* a literal character *)
  | NotSpace.        (* [^\s] *)

Inductive regex :=
  | Atom (a : atom)
  | Cat (r1 r2 : regex)
  | Opt (r : regex)        (* r?  greedy *)
  | Plus (a : atom)        (* a+  greedy *)
  | Group (r : regex).     (* ( r ) *)

Definition atom_ok (a : atom) (c : N) : bool :=
  match a with
  | Chr x => unit_eqb x c
  | NotSpace => negb (is_space c)
  end.

(** Backtracking, with the continuation [k] for what follows: a greedy
    [a+] first tries to take one more unit and gives units back only
    when the rest fails. The result is the input left after the whole
    match. *)
Fixpoint plus_bt (a : atom) (s : jsstring)
    (k : jsstring -> option jsstring) : option jsstring :=
  match s with
  | [] => None
  | c :: s' =>
      if atom_ok a c then
        match plus_bt a s' k with
        | Some rest => Some rest
        | None => k s'
        end
      else None
  end.

Fixpoint bt (r : regex) (s : jsstring)
    (k : jsstring -> option jsstring) : option jsstring :=
  match r with
  | Atom a =>
      match s with
      | [] => None
      | c :: s' => if atom_ok a c then k s' else None
      end
  | Cat r1 r2 => bt r1 s (fun s1 => bt r2 s1 k)
  | Opt r1 =>
      match bt r1 s k with
      | Some rest => Some rest
      | None => k s
      end
  | Plus a => plus_bt a s k
  | Group r1 => bt r1 s k
  end.

(** One attempt at the start of [s]: the matched substring. *)
Definition exec_at (r : regex) (s : jsstring) : option jsstring :=
  match bt r s (fun rest => Some rest) with
  | Some rest => Some (take (length s - length rest)%nat s)
  | None => None
  end.

(** The loop of a global ([g]) regular expression: the leftmost match
    from the current index, then on from its end (one further after an
    empty match). [skip] counts the units of the last match still to
    pass over. *)
Fixpoint match_all (r : regex) (s : jsstring) (skip : nat) : list jsstring :=
  match skip with
  | S n =>
      match s with
      | [] => []
      | _ :: s' => match_all r s' n
      end
  | O =>
      match exec_at r s with
      | Some m =>
          m :: match s with
               | [] => []
               | _ :: s' => match_all r s' (Nat.pred (length m))
               end
      | None =>
          match s with
          | [] => []
          | _ :: s' => match_all r s' 0%nat
          end
      end
  end.

(** [text.match(re)] for a global [re]: [null] without a match, else the
    array of all matches. *)
Definition js_match (r : regex) (text : jsstring) : option (list jsstring) :=
  match match_all r text 0%nat with
  | [] => None
  | ms => Some ms
  end.

(** The characters of a literal, in sequence, then [r]. *)
Fixpoint chars (l : jsstring) (r : regex) : regex :=
  match l with
  | [] => r
  | c :: l' => Cat (Atom (Chr c)) (chars l' r)
  end.

End JS.

Import JS.

(* ===================================================================== *)
(** ** Handlers as computations over a world *)
(* ===================================================================== *)

Module Eff.

(** A thrown value: an [Error] object with its message, or some other
    value. *)
Inductive Exn :=
  | JsError (message : jsstring)
  | NonError.

(** How a block ends: normally, by [throw], or by [return]. *)
Inductive Outcome (A : Type) :=
  | Normal (a : A)
  | Thrown (error : Exn)
  | Returned.
Arguments Normal {A} a.
Arguments Thrown {A} error.
Arguments Returned {A}.

Section Monad.

(** The world: the state cells and what is observed. *)
Context {W : Type}.

Definition M (A : Type) : Type := W -> Outcome A * W.

Definition ret {A} (a : A) : M A := fun w => (Normal a, w).

Definition bind {A B} (m : M A) (f : A -> M B) : M B :=
  fun w =>
    match m w with
    | (Normal a, w') => f a w'
    | (Thrown e, w') => (Thrown e, w')
    | (Returned, w') => (Returned, w')
    end.

Definition throw {A} (error : Exn) : M A := fun w => (Thrown error, w).
Definition return_ {A} : M A := fun w => (Returned, w).

(** [try { body } catch (error) { handler }]. *)
Definition try_catch {A} (body : M A) (handler : Exn -> M A) : M A :=
  fun w =>
    match body w with
    | (Thrown e, w') => handler e w'
    | res => res
    end.

(** [try { body } catch (error) { handler } finally { final }]: the
    [finally] block runs however the rest ended. *)
Definition try_catch_finally {A} (body : M A) (handler : Exn -> M A)
    (final : M unit) : M A :=
  fun w =>
    let '(o, w1) := try_catch body handler w in
    match final w1 with
    | (Normal _, w2) => (o, w2)
    | (Thrown e, w2) => (Thrown e, w2)
    | (Returned, w2) => (Returned, w2)
    end.

(** A function call: [return] ends the callee, not the caller. *)
Definition call (m : M unit) : M unit :=
  fun w =>
    match m w with
    | (Returned, w') => (Normal tt, w')
    | res => res
    end.

Fixpoint forEach {A} (l : list A) (f : A -> M unit) : M unit :=
  match l with
  | [] => ret tt
  | x :: l' => bind (f x) (fun _ => forEach l' f)
  end.

End Monad.

Arguments M W A : clear implicits.

Declare Scope eff_scope.
Delimit Scope eff_scope with eff.
Notation "x <- c1 ;; c2" := (bind c1 (fun x => c2))
  (at level 100, c1 at next level, right associativity) : eff_scope.
Notation "c1 ;; c2" := (bind c1 (fun _ => c2))
  (at level 100, right associativity) : eff_scope.

End Eff.

Import Eff.
Local Open Scope eff_scope.

(* ===================================================================== *)
(** ** The scanner widget: [src/components/url-scanner.tsx] *)
(* ===================================================================== *)

Module Scanner.

(** A [MediaStream]: the tracks [getTracks()] returns. A track is a
    shared object of the device; the world records which are live. *)
Record MediaStream := { getTracks : list nat }.

(** The component's state: its five [useState] cells. *)
Record State := {
  isOpen : bool;
  isProcessing : bool;
  stream : option MediaStream;
  capturedImage : option jsstring;
  isCameraReady : bool
}.

(** The state of the first render. *)
Definition initial : State :=
  {| isOpen := false; isProcessing := false; stream := None;
     capturedImage := None; isCameraReady := false |}.

(** The stages of the recognition engine's worker. *)
Inductive OcrStage :=
  | CreateWorker | LoadLanguage | Initialize | Recognize | Terminate.

(** What the user, the caller and the collaborators observe. *)
Inductive Event :=
  | EvAlert (msg : jsstring)
  | EvConsoleError (msg : jsstring)
  | EvConsoleLog (msg arg : jsstring)
  | EvUrlDetected (url : jsstring)            (* onUrlDetected(url) *)
  | EvGetUserMedia                            (* the camera request *)
  | EvTrackStop (t : nat)                     (* track.stop() *)
  | EvOcr (stage : OcrStage) (arg : jsstring).

(** The world a handler runs in: the state cells (after the updates
    queued so far), the live tracks of the device, the video element's
    [srcObject], and the events so far (oldest first). *)
Record World := {
  st : State;
  live : gset nat;
  srcObject : option MediaStream;
  trace : list Event
}.

Definition M := Eff.M World.

Definition modify (f : State -> State) : M unit :=
  fun w => (Normal tt, {| st := f (st w); live := live w;
                          srcObject := srcObject w; trace := trace w |}).

Definition emit (e : Event) : M unit :=
  fun w => (Normal tt, {| st := st w; live := live w;
                          srcObject := srcObject w; trace := trace w ++ [e] |}).

(** The state setters. *)
Definition setIsOpen (b : bool) : M unit :=
  modify (fun s => {| isOpen := b; isProcessing := isProcessing s;
                      stream := stream s; capturedImage := capturedImage s;
                      isCameraReady := isCameraReady s |}).
Definition setIsProcessing (b : bool) : M unit :=
  modify (fun s => {| isOpen := isOpen s; isProcessing := b;
                      stream := stream s; capturedImage := capturedImage s;
                      isCameraReady := isCameraReady s |}).
Definition setStream (v : option MediaStream) : M unit :=
  modify (fun s => {| isOpen := isOpen s; isProcessing := isProcessing s;
                      stream := v; capturedImage := capturedImage s;
                      isCameraReady := isCameraReady s |}).
Definition setCapturedImage (v : option jsstring) : M unit :=
  modify (fun s => {| isOpen := isOpen s; isProcessing := isProcessing s;
                      stream := stream s; capturedImage := v;
                      isCameraReady := isCameraReady s |}).
Definition setIsCameraReady (b : bool) : M unit :=
  modify (fun s => {| isOpen := isOpen s; isProcessing := isProcessing s;
                      stream := stream s; capturedImage := capturedImage s;
                      isCameraReady := b |}).

Definition alert (msg : jsstring) : M unit := emit (EvAlert msg).
Definition console_error (msg : jsstring) : M unit := emit (EvConsoleError msg).
Definition console_log (msg arg : jsstring) : M unit := emit (EvConsoleLog msg arg).
Definition onUrlDetected (url : jsstring) : M unit := emit (EvUrlDetected url).

(** [track.stop()]: the track ends. *)
Definition track_stop (t : nat) : M unit :=
  fun w => (Normal tt, {| st := st w; live := live w ∖ {[t]};
                          srcObject := srcObject w;
                          trace := trace w ++ [EvTrackStop t] |}).

(** [navigator.mediaDevices.getUserMedia(constraints)]: the device grants
    a stream of live tracks, or the promise rejects (access denied, no
    device, no [mediaDevices]). *)
Definition getUserMedia (answer : option MediaStream) : M MediaStream :=
  fun w =>
    let w1 := {| st := st w; live := live w; srcObject := srcObject w;
                 trace := trace w ++ [EvGetUserMedia] |} in
    match answer with
    | Some ms =>
        (Normal ms, {| st := st w1; live := live w1 ∪ list_to_set (getTracks ms);
                       srcObject := srcObject w1; trace := trace w1 |})
    | None => (Thrown (JsError (lit "NotAllowedError")), w1)
    end.

Definition set_srcObject (ms : MediaStream) : M unit :=
  fun w => (Normal tt, {| st := st w; live := live w;
                          srcObject := Some ms; trace := trace w |}).

(** The video element behind [videoRef.current], as [captureImage] reads
    it. *)
Record Video := {
  videoWidth : N;
  videoHeight : N;
  clientWidth : N;
  clientHeight : N;
  readyState : N
}.

Definition HAVE_ENOUGH_DATA : N := 4.

(** [a || b] on numbers: [a] unless it is zero. *)
Definition num_or (a b : N) : N := if a =? 0 then b else a.

(** Set canvas size to match video dimensions:
    [video.videoWidth || video.clientWidth], and so for the height. *)
Definition canvas_width (v : Video) : N := num_or (videoWidth v) (clientWidth v).
Definition canvas_height (v : Video) : N := num_or (videoHeight v) (clientHeight v).

(** What the surroundings answer to a handler. *)
Record Env := {
  video : option Video;                 (* videoRef.current *)
  media : option MediaStream;           (* the answer to getUserMedia *)
  context2d : bool;                     (* canvas.getContext('2d') is not null *)
  toDataURL : N -> N -> jsstring;       (* the encoded frame of a canvas of that size *)
  ocr_fails : option OcrStage;          (* the stage at which the engine fails *)
  ocr_text : jsstring                   (* the text it recognizes *)
}.

(** One call of the recognition worker. *)
Definition ocr_step (env : Env) (stage : OcrStage) (arg : jsstring) : M unit :=
  emit (EvOcr stage arg) ;;
  match ocr_fails env, stage with
  | Some CreateWorker, CreateWorker
  | Some LoadLanguage, LoadLanguage
  | Some Initialize, Initialize
  | Some Recognize, Recognize
  | Some Terminate, Terminate => throw (JsError (lit "worker error"))
  | _, _ => ret tt
  end.

(** [/(https?:\/\/[^\s]+)/g] *)
Definition urlRegex : regex :=
  Group (chars (lit "http")
          (Cat (Opt (Atom (Chr 115)))             (* s? *)
               (chars (lit "://") (Plus NotSpace)))).

Section Handlers.

(** The render the handlers were created in. *)
Variable r : State.
Variable env : Env.

Definition startCamera : M unit :=
  try_catch
    (setIsCameraReady false ;;
     mediaStream <- getUserMedia (media env) ;;
     setStream (Some mediaStream) ;;
     match video env with
     | Some _ =>
         set_srcObject mediaStream
         (* then waits for onloadedmetadata; nothing follows it *)
     | None => ret tt
     end)
    (fun error =>
       console_error (lit "Error accessing camera:") ;;
       alert (lit "Unable to access camera. Please make sure you have granted camera permissions.")).

Definition stopCamera : M unit :=
  match stream r with
  | Some s =>
      forEach (getTracks s) track_stop ;;
      setStream None
  | None => ret tt
  end ;;
  setCapturedImage None ;;
  setIsCameraReady false.

Definition handleOpen : M unit :=
  setIsOpen true ;;
  call startCamera.

Definition handleClose : M unit :=
  setIsOpen false ;;
  call stopCamera.

Definition captureImage : M unit :=
  match video env with
  | None => return_
  | Some video =>
      if negb (isCameraReady r) then return_ else
      try_catch_finally
        (setIsProcessing true ;;
         let width := canvas_width video in
         let height := canvas_height video in
         if negb (context2d env) then return_ else
         if readyState video =? HAVE_ENOUGH_DATA then
           let imageData := toDataURL env width height in
           if truthy (Some imageData) && (100 <? length imageData)%nat then
             setCapturedImage (Some imageData) ;;
             (* Only stop the camera after we've successfully captured the image *)
             call stopCamera
           else throw (JsError (lit "Failed to capture image"))
         else throw (JsError (lit "Video not ready")))
        (fun error =>
           console_error (lit "Error capturing image:") ;;
           alert (lit "Error capturing image. Please try again.") ;;
           (* If capture fails, don't stop the camera *)
           setCapturedImage None)
        (setIsProcessing false)
  end.

Definition retakePhoto : M unit :=
  setCapturedImage None ;;
  call startCamera.

Definition confirmImage : M unit :=
  if truthy (capturedImage r) then
    let image := default [] (capturedImage r) in
    try_catch_finally
      (setIsProcessing true ;;
       ocr_step env CreateWorker [] ;;
       ocr_step env LoadLanguage (lit "eng") ;;
       ocr_step env Initialize (lit "eng") ;;
       ocr_step env Recognize image ;;
       let text := ocr_text env in
       ocr_step env Terminate [] ;;
       let urlMatch := js_match urlRegex text in
       match urlMatch with
       | Some (detectedUrl :: _) =>
           console_log (lit "Detected URL:") detectedUrl ;;
           onUrlDetected detectedUrl ;;
           call handleClose
       | _ =>
           alert (lit "No URL detected in the image. Please try again.")
       end)
      (fun error =>
         console_error (lit "Error recognizing URL:") ;;
         alert (lit "Error recognizing URL. Please try again."))
      (setIsProcessing false)
  else ret tt.

(** The [loadeddata] listener of the video element. *)
Definition handleVideoReady : M unit :=
  setIsCameraReady true.

End Handlers.

(** The controls of the widget. *)
Inductive Control :=
  | ClickOpen        (* the camera button: handleOpen *)
  | DialogClose      (* the dialog's onOpenChange: handleClose *)
  | ClickLeft        (* Retake with an image, else Cancel *)
  | ClickRight       (* Confirm with an image, else Capture *)
  | VideoLoaded.     (* the loadeddata event *)

(** The handler a control is bound to in the render of state [r]. *)
Definition handler (r : State) (env : Env) (c : Control) : M unit :=
  match c with
  | ClickOpen => handleOpen env
  | DialogClose => handleClose r
  | ClickLeft => if truthy (capturedImage r) then retakePhoto env else handleClose r
  | ClickRight => if truthy (capturedImage r) then confirmImage r env else captureImage r env
  | VideoLoaded => handleVideoReady
  end.

(** The user operates a control of the current render: the handler's
    reads are the state the world holds at that moment. *)
Definition run (h : State -> M unit) (w : World) : World :=
  snd (h (st w) w).

Definition dispatch (env : Env) (c : Control) (w : World) : World :=
  run (fun r => handler r env c) w.

(** The events a handler adds. *)
Definition emitted (w w' : World) : list Event :=
  drop (length (trace w)) (trace w').

(** The events of a recognition that succeeds with the image [image]. *)
Definition ocr_events (image : jsstring) : list Event :=
  [ EvOcr CreateWorker []; EvOcr LoadLanguage (lit "eng");
    EvOcr Initialize (lit "eng"); EvOcr Recognize image; EvOcr Terminate [] ].

(** *** The widget as a transition system *)

(** Modelled from the spec: the dialog component of [./ui/dialog] is not
    among the sources. Section 4.1 of the specification has the scanner
    opened from its idle state only: while the dialog is open it covers
    the camera button. *)
Definition camera_button_reachable (s : State) : bool := negb (isOpen s).

(** The controls the render of state [s] offers. The dialog's content
    (the video or the image, and the two buttons) is there while the
    dialog is open; the buttons carry the [disabled] attributes of the
    source. *)
Definition enabled (s : State) (c : Control) : bool :=
  match c with
  | ClickOpen => camera_button_reachable s
  | DialogClose => isOpen s
  | ClickLeft => isOpen s && negb (isProcessing s)
  | ClickRight =>
      isOpen s
      && negb (isProcessing s
               || (negb (truthy (capturedImage s)) && negb (isCameraReady s)))
  | VideoLoaded => isOpen s && negb (truthy (capturedImage s))
  end.

(** The world before the first interaction. *)
Definition start : World :=
  {| st := initial; live := ∅; srcObject := None; trace := [] |}.

(** The worlds the user can bring about. A step is one control operated
    to the end of its handler: the answers of the camera and of the
    recognition engine arrive before the next control is operated. *)
Inductive reachable : World -> Prop :=
  | reach_start : reachable start
  | reach_step w env c :
      reachable w -> enabled (st w) c = true ->
      reachable (dispatch env c w).

(** The tracks of the stream a state holds. *)
Definition held_tracks (s : State) : list nat :=
  match stream s with
  | Some ms => getTracks ms
  | None => []
  end.

(** Every live track belongs to the stream the widget holds. *)
Definition owns_live (w : World) : Prop :=
  live w ⊆ list_to_set (held_tracks (st w)).

End Scanner.

(* ===================================================================== *)
(** ** What the specification calls a URL *)
(* ===================================================================== *)

Module Url.

(** [scheme://] and one or more non-whitespace characters, the scheme
    being [http] or [https]. *)
Definition url_pattern (u : jsstring) : Prop :=
  exists scheme body,
    (scheme = lit "http" \/ scheme = lit "https") /\
    body <> [] /\
    Forall (fun c => is_space c = false) body /\
    u = scheme ++ lit "://" ++ body.

(** [u] is a substring of [text] that matches, [pre] before it. *)
Definition url_at (text pre u : jsstring) : Prop :=
  exists post, text = pre ++ u ++ post /\ url_pattern u.

Definition contains_url (text : jsstring) : Prop :=
  exists pre u, url_at text pre u.

(** The first match: no match starts further left, and none from the
    same place is longer. *)
Definition first_url (text pre u : jsstring) : Prop :=
  url_at text pre u /\
  (forall pre' u', url_at text pre' u' -> (length pre <= length pre')%nat) /\
  (forall u', url_at text pre u' -> (length u' <= length u)%nat).

(** What is left of [s] after [http://] or [https://]. *)
Definition after_scheme (s : jsstring) : option jsstring :=
  match strip_prefix (lit "http") s with
  | Some s1 =>
      match s1 with
      | c :: s2 =>
          if unit_eqb 115 c then strip_prefix (lit "://") s2
          else strip_prefix (lit "://") s1
      | [] => None
      end
  | None => None
  end.

(** [s] without its leading non-whitespace characters. *)
Fixpoint after_run (s : jsstring) : jsstring :=
  match s with
  | [] => []
  | c :: s' => if is_space c then s else after_run s'
  end.

End Url.

(* ===================================================================== *)
(** ** The analysis page over the remote endpoint: [handleSubmit] *)
(* ===================================================================== *)

Module Remote.

Inductive Severity := high | medium | low | info.

Record SecurityIssue := { message : jsstring; severity : Severity }.

Record RiskCheck := {
  suspicious_patterns : list jsstring;
  risk_level : jsstring
}.

(** The closure [() => handleSubmit(e)] of the render whose input holds
    [url]. *)
Inductive Callback :=
  | CallHandleSubmit (url : jsstring) (e : nat).

Section Page.

(** A JSON value the page passes on or prints without looking into it,
    with the conversion [String(value)], and [toLowerCase] of the
    language. *)
Variable JsValue : Type.
Variable String_ : JsValue -> jsstring.
Variable toLowerCase : jsstring -> jsstring.

Record Category := { score : JsValue; issues : list SecurityIssue }.

Record AnalysisResult := {
  ssl : Category;
  contentSecurity : Category;
  vulnerabilities : Category;
  phishing : Category;
  malware : Category;
  webAttacks : Category;
  certificateTransparency : Category;
  libraries : Category
}.

(** The body of a successful response, as [handleSubmit] reads it;
    [security_headers] in the order of [Object.entries]. *)
Record ResponseData := {
  overall_score : JsValue;
  security_headers : list (jsstring * JsValue);
  recommendations : list jsstring;
  xss_check_issues : list jsstring;
  phishing_check : RiskCheck;
  malware_check : RiskCheck;
  csrf_check_issues : list jsstring;
  ct_check_ct_status : jsstring
}.

Definition risk_severity (c : RiskCheck) : Severity :=
  if str_eqb (risk_level c) (lit "high") then high
  else if str_eqb (risk_level c) (lit "medium") then medium
  else low.

(** Transform the API response to match our interface. *)
Definition transform (data : ResponseData) : AnalysisResult :=
  {| ssl :=
       {| score := overall_score data;
          issues :=
            List.map (fun '(header, value) =>
                   {| message := header ++ lit ": " ++ String_ value;
                      severity :=
                        if str_eqb (String_ value) (lit "Missing") then high
                        else if includes (String_ value) (lit "Invalid") then medium
                        else info |})
                (security_headers data) |};
     contentSecurity :=
       {| score := overall_score data;
          issues :=
            List.map (fun rec =>
                   {| message := rec;
                      severity :=
                        if includes (toLowerCase rec) (lit "critical") then high
                        else if includes (toLowerCase rec) (lit "implement") then medium
                        else low |})
                (List.filter (fun rec => includes rec (lit "CSP") || includes rec (lit "security"))
                        (recommendations data)) |};
     vulnerabilities :=
       {| score := overall_score data;
          issues :=
            List.map (fun issue => {| message := issue; severity := high |})
                (xss_check_issues data) |};
     phishing :=
       {| score := overall_score data;
          issues :=
            List.map (fun pattern =>
                   {| message := pattern;
                      severity := risk_severity (phishing_check data) |})
                (suspicious_patterns (phishing_check data)) |};
     malware :=
       {| score := overall_score data;
          issues :=
            List.map (fun pattern =>
                   {| message := pattern;
                      severity := risk_severity (malware_check data) |})
                (suspicious_patterns (malware_check data)) |};
     webAttacks :=
       {| score := overall_score data;
          issues :=
            List.map (fun issue =>
                   {| message := issue;
                      severity :=
                        if includes issue (lit "No CSRF protection") then high
                        else medium |})
                (csrf_check_issues data) |};
     certificateTransparency :=
       {| score := overall_score data;
          issues :=
            [ {| message := ct_check_ct_status data;
                 severity :=
                   if includes (ct_check_ct_status data) (lit "Not found") then high
                   else info |} ] |};
     libraries :=
       {| score := overall_score data;
          issues :=
            List.map (fun rec =>
                   {| message := rec;
                      severity :=
                        if includes (toLowerCase rec) (lit "critical") then high
                        else medium |})
                (List.filter (fun rec => includes rec (lit "upgrade") || includes rec (lit "implement"))
                        (recommendations data)) |}
  |}.

(** The eight categories of a result, in the order of its keys. *)
Definition categories (res : AnalysisResult) : list Category :=
  [ ssl res; contentSecurity res; vulnerabilities res; phishing res;
    malware res; webAttacks res; certificateTransparency res; libraries res ].

(** The page's state cells. *)
Record State := {
  analysisResult : option AnalysisResult;
  isLoading : bool;
  url : jsstring
}.

Inductive Event :=
  | EvPreventDefault (e : nat)
  | EvToastLoading (title description : jsstring)
  | EvFetch (endpoint method contentType body_url : jsstring)
  | EvToastSuccess (title description : jsstring) (id : nat)
  | EvToastError (title description : jsstring) (id : nat)
      (action_label : jsstring) (action_onClick : Callback) (duration : N)
  | EvConsoleError (msg : jsstring) (error : Exn).

Record World := { st : State; trace : list Event }.

(** What [fetch] answers: the promise rejects, or a response arrives
    whose body parses into the expected shape or throws on the way. *)
Inductive FetchOutcome :=
  | FetchRejects (error : Exn)
  | Responds (status : N) (body : Exn + ResponseData).

Record Env := {
  apiHost : jsstring;          (* env.apiHost *)
  toast_id : nat;              (* the id toast.loading returns *)
  fetch_answer : FetchOutcome
}.

Definition M := Eff.M World.

Definition emit (ev : Event) : M unit :=
  fun w => (Normal tt, {| st := st w; trace := trace w ++ [ev] |}).

Definition setAnalysisResult (v : option AnalysisResult) : M unit :=
  fun w => (Normal tt,
            {| st := {| analysisResult := v; isLoading := isLoading (st w);
                        url := url (st w) |};
               trace := trace w |}).
Definition setIsLoading (b : bool) : M unit :=
  fun w => (Normal tt,
            {| st := {| analysisResult := analysisResult (st w); isLoading := b;
                        url := url (st w) |};
               trace := trace w |}).
Definition setUrl (u : jsstring) : M unit :=
  fun w => (Normal tt,
            {| st := {| analysisResult := analysisResult (st w);
                        isLoading := isLoading (st w); url := u |};
               trace := trace w |}).

(** [response.ok]: the status is in the range 200-299. *)
Definition ok (status : N) : bool := (200 <=? status) && (status <=? 299).

(** The message of the error thrown for a response that is not ok. *)
Definition status_message (status : N) : jsstring :=
  if status =? 404 then lit "Website not found"
  else if status =? 429 then lit "Too many requests, please try again later"
  else if status =? 400 then lit "Invalid URL format"
  else lit "Failed to analyze website".

(** [fetch(...)], then what the [try] block does with the response up to
    the parsed body. *)
Definition fetch (env : Env) (body_url : jsstring) : M (N * (Exn + ResponseData)) :=
  emit (EvFetch (apiHost env ++ lit "/check-website") (lit "POST")
          (lit "application/json") body_url) ;;
  match fetch_answer env with
  | FetchRejects error => throw error
  | Responds status body => ret (status, body)
  end.

(** [handleSubmit] of the render whose input holds [url]. *)
Definition handleSubmit (url : jsstring) (e : nat) (env : Env) : M unit :=
  emit (EvPreventDefault e) ;;
  setIsLoading true ;;
  setAnalysisResult None ;;
  emit (EvToastLoading (lit "Analyzing website security...")
          (lit "Please wait while we check various security parameters.")) ;;
  let loadingToast := toast_id env in
  try_catch_finally
    (response <- fetch env url ;;
     let '(status, body) := response in
     if negb (ok status) then throw (JsError (status_message status)) else
     match body with
     | inl error => throw error
     | inr data =>
         setAnalysisResult (Some (transform data)) ;;
         emit (EvToastSuccess (lit "Analysis completed")
                 (lit "Security check completed successfully.") loadingToast)
     end)
    (fun error =>
       let errorMessage :=
         match error with
         | JsError message => message
         | NonError => lit "An unexpected error occurred"
         end in
       emit (EvToastError (lit "Analysis failed") errorMessage loadingToast
               (lit "Try Again") (CallHandleSubmit url e) 5000) ;;
       emit (EvConsoleError (lit "Error analyzing website:") error))
    (setIsLoading false).

(** The user clicks the action of a notification. *)
Definition onClick (cb : Callback) (env : Env) : M unit :=
  match cb with
  | CallHandleSubmit url e => handleSubmit url e env
  end.

Definition handleUrlDetected (detectedUrl : jsstring) : M unit :=
  setUrl detectedUrl.

(** The form is submitted in the current render. *)
Definition submit (e : nat) (env : Env) (w : World) : World :=
  snd (handleSubmit (url (st w)) e env w).

(** The events a step adds. *)
Definition emitted (w w' : World) : list Event :=
  drop (length (trace w)) (trace w').

End Page.

Arguments score {JsValue} _.
Arguments issues {JsValue} _.
Arguments ssl {JsValue} _.
Arguments contentSecurity {JsValue} _.
Arguments vulnerabilities {JsValue} _.
Arguments phishing {JsValue} _.
Arguments malware {JsValue} _.
Arguments webAttacks {JsValue} _.
Arguments certificateTransparency {JsValue} _.
Arguments libraries {JsValue} _.
Arguments overall_score {JsValue} _.
Arguments security_headers {JsValue} _.
Arguments recommendations {JsValue} _.
Arguments xss_check_issues {JsValue} _.
Arguments phishing_check {JsValue} _.
Arguments malware_check {JsValue} _.
Arguments csrf_check_issues {JsValue} _.
Arguments ct_check_ct_status {JsValue} _.
Arguments categories {JsValue} _.
Arguments analysisResult {JsValue} _.
Arguments isLoading {JsValue} _.
Arguments url {JsValue} _.
Arguments st {JsValue} _.
Arguments trace {JsValue} _.
Arguments FetchRejects {JsValue} _.
Arguments Responds {JsValue} _ _.
Arguments apiHost {JsValue} _.
Arguments toast_id {JsValue} _.
Arguments fetch_answer {JsValue} _.
Arguments transform {JsValue} _ _ _.
Arguments handleSubmit {JsValue} _ _ _ _ _.
Arguments onClick {JsValue} _ _ _ _.
Arguments submit {JsValue} _ _ _ _ _.
Arguments emitted {JsValue} _ _.

(** The events every submission starts with: the default is prevented,
    the loading notification shown, the request sent. *)
Definition prologue {JsValue} (url : jsstring) (e : nat) (env : Env JsValue) : list Event :=
  [ EvPreventDefault e;
    EvToastLoading (lit "Analyzing website security...")
      (lit "Please wait while we check various security parameters.");
    EvFetch (apiHost env ++ lit "/check-website") (lit "POST")
      (lit "application/json") url ].

End Remote.

(* ===================================================================== *)
(** ** The mock: [src/app/actions.ts] and [src/app/page.tsx] *)
(* ===================================================================== *)

Module Mock.

Record Category := { score : N; issues : list jsstring }.

Record AnalysisResult := {
  ssl : Category;
  contentSecurity : Category;
  vulnerabilities : Category
}.

(** [actions.ts]: the server action returns mock data, whatever the URL. *)
Definition analyzeWebsite (url : jsstring) : AnalysisResult :=
  {| ssl :=
       {| score := 85;
          issues := [lit "Certificate expires in 30 days"; lit "TLS 1.2 supported"] |};
     contentSecurity :=
       {| score := 70;
          issues := [lit "Missing CSP header"; lit "X-Frame-Options not set"] |};
     vulnerabilities :=
       {| score := 90;
          issues := [lit "No critical vulnerabilities found"; lit "Server version exposed"] |}
  |}.

Definition categories (res : AnalysisResult) : list Category :=
  [ssl res; contentSecurity res; vulnerabilities res].

(** [page.tsx]: the state cells of the page, and its pending timers (the
    delay of each; the only callback it ever schedules is the one that
    shows the result). *)
Record State := {
  analysisResult : option AnalysisResult;
  isLoading : bool
}.

Record World := {
  st : State;
  timers : list N;
  prevented : list nat      (* the events whose default was prevented *)
}.

(** Simulate API call with mock data: what the timer's callback does. *)
Definition timer_callback (w : World) : World :=
  let s1 :=
    {| analysisResult :=
         Some {| ssl :=
                   {| score := 85;
                      issues := [lit "Certificate expires in 30 days"; lit "TLS 1.2 supported"] |};
                 contentSecurity :=
                   {| score := 70;
                      issues := [lit "Missing CSP header"; lit "X-Frame-Options not set"] |};
                 vulnerabilities :=
                   {| score := 90;
                      issues := [lit "No critical vulnerabilities found";
                                 lit "Server version exposed"] |} |};
       isLoading := isLoading (st w) |} in
  let s2 := {| analysisResult := analysisResult s1; isLoading := false |} in
  {| st := s2; timers := timers w; prevented := prevented w |}.

Definition handleSubmit (e : nat) (w : World) : World :=
  {| st := {| analysisResult := analysisResult (st w); isLoading := true |};
     timers := timers w ++ [2000];
     prevented := prevented w ++ [e] |}.

(** The oldest pending timer fires. *)
Definition fire (w : World) : World :=
  match timers w with
  | [] => w
  | _ :: ts =>
      timer_callback {| st := st w; timers := ts; prevented := prevented w |}
  end.

End Mock.

(* ===================================================================== *)
(** ** Sample worlds *)
(* ===================================================================== *)

Module Samples.
Import Scanner.

(** A camera stream of one video track. *)
Definition cam : MediaStream := {| getTracks := [0%nat] |}.

Definition vid : Video :=
  {| videoWidth := 1280; videoHeight := 720;
     clientWidth := 640; clientHeight := 360; readyState := 4 |}.

(** An encoded frame, 123 units long. *)
Definition frame : jsstring :=
  lit "data:image/jpeg;base64," ++ repeat 65 100.

(** The surroundings: the camera grants [cam], the frame encodes to
    [frame], the engine reads [text]. *)
Definition env_text (text : jsstring) : Env :=
  {| video := Some vid; media := Some cam; context2d := true;
     toDataURL := fun _ _ => frame; ocr_fails := None; ocr_text := text |}.

(** The same, with camera access denied. *)
Definition env_denied : Env :=
  {| video := Some vid; media := None; context2d := true;
     toDataURL := fun _ _ => frame; ocr_fails := None; ocr_text := [] |}.

(** The same, the video not having buffered enough. *)
Definition env_buffering : Env :=
  {| video := Some {| videoWidth := 1280; videoHeight := 720;
                      clientWidth := 640; clientHeight := 360; readyState := 2 |};
     media := Some cam; context2d := true;
     toDataURL := fun _ _ => frame; ocr_fails := None; ocr_text := [] |}.

(** The same, the recognition call of the worker failing. *)
Definition env_no_worker : Env :=
  {| video := Some vid; media := Some cam; context2d := true;
     toDataURL := fun _ _ => frame; ocr_fails := Some Recognize; ocr_text := [] |}.

(** The same, the canvas giving no drawing context. *)
Definition env_no_context : Env :=
  {| video := Some vid; media := Some cam; context2d := false;
     toDataURL := fun _ _ => frame; ocr_fails := None; ocr_text := [] |}.

(** The dialog open on the live camera, the video ready or not yet. *)
Definition live_world (ready : bool) : World :=
  {| st := {| isOpen := true; isProcessing := false; stream := Some cam;
              capturedImage := None; isCameraReady := ready |};
     live := {[ 0%nat ]}; srcObject := Some cam; trace := [] |}.

(** The scanner opened from the start, the camera granted and its video
    loaded. *)
Definition opened_world : World :=
  dispatch (env_text []) VideoLoaded (dispatch (env_text []) ClickOpen start).

(** The dialog open on a captured image, the camera released. *)
Definition captured_world : World :=
  {| st := {| isOpen := true; isProcessing := false; stream := None;
              capturedImage := Some frame; isCameraReady := false |};
     live := ∅; srcObject := Some cam; trace := [] |}.

Definition text_with_url : jsstring := lit "visit https://example.com today".
Definition text_without_url : jsstring := lit "no address on this page".

End Samples.

Module RemoteSamples.
Import Remote.

(** JSON values for the samples: whole numbers and strings, with the
    conversion [String(value)] on them, and [toLowerCase] on the ASCII
    letters. *)
Inductive json :=
  | JNum (n : N)
  | JStr (s : jsstring).

Definition json_String (v : json) : jsstring :=
  match v with
  | JNum n => lit (NilZero.string_of_uint (N.to_uint n))
  | JStr s => s
  end.

Definition lower (s : jsstring) : jsstring :=
  List.map (fun c => if (65 <=? c) && (c <=? 90) then c + 32 else c) s.

Definition blank : World json :=
  {| st := {| analysisResult := None; isLoading := false;
              url := lit "https://example.com" |};
     trace := [] |}.

(** The page before anything is typed. *)
Definition empty_input : World json :=
  {| st := {| analysisResult := None; isLoading := false; url := [] |};
     trace := [] |}.

(** The endpoint answers 429. *)
Definition env_limited : Env json :=
  {| apiHost := lit "https://api.example.org"; toast_id := 1%nat;
     fetch_answer := Responds 429 (inl NonError) |}.

Definition body : ResponseData json :=
  {| overall_score := JNum 72;
     security_headers := [(lit "X-Frame-Options", JStr (lit "Missing"))];
     recommendations := [lit "Critical: implement CSP"];
     xss_check_issues := [];
     phishing_check := {| suspicious_patterns := []; risk_level := lit "low" |};
     malware_check := {| suspicious_patterns := []; risk_level := lit "low" |};
     csrf_check_issues := [lit "No CSRF protection found"];
     ct_check_ct_status := lit "Found" |}.

(** The endpoint cannot be reached. *)
Definition env_offline : Env json :=
  {| apiHost := lit "https://api.example.org"; toast_id := 1%nat;
     fetch_answer := FetchRejects (JsError (lit "Failed to fetch")) |}.

(** The endpoint answers 200 with [body]. *)
Definition env_fine : Env json :=
  {| apiHost := lit "https://api.example.org"; toast_id := 1%nat;
     fetch_answer := Responds 200 (inr body) |}.

End RemoteSamples.

(* ===================================================================== *)
(** ** Sessions with the scanner *)
(* ===================================================================== *)

Module ScannerRuns.
Import Scanner.

(** The user operates one control after the other, the surroundings
    answering each as they will. *)
Definition dispatch_all (steps : list (Env * Control)) (w : World) : World :=
  fold_left (fun w0 '(env, c) => dispatch env c w0) steps w.

(** The URLs reported to the caller among some events. *)
Fixpoint reported (evs : list Event) : list jsstring :=
  match evs with
  | [] => []
  | EvUrlDetected u :: evs' => u :: reported evs'
  | _ :: evs' => reported evs'
  end.

(** The alerts among some events. *)
Fixpoint alerts (evs : list Event) : list jsstring :=
  match evs with
  | [] => []
  | EvAlert msg :: evs' => msg :: alerts evs'
  | _ :: evs' => alerts evs'
  end.

(** The place of a stage in the sequence of the worker's calls. *)
Definition stage_index (stage : OcrStage) : nat :=
  match stage with
  | CreateWorker => 0
  | LoadLanguage => 1
  | Initialize => 2
  | Recognize => 3
  | Terminate => 4
  end.

End ScannerRuns.

(* ===================================================================== *)
(** ** Submissions to the remote endpoint *)
(* ===================================================================== *)

Module RemoteRuns.
Import Remote.

(** The description the [catch] branch gives of what was thrown:
    [error instanceof Error ? error.message : 'An unexpected error occurred']. *)
Definition error_description (error : Exn) : jsstring :=
  match error with
  | JsError message => message
  | NonError => lit "An unexpected error occurred"
  end.

(** What, if anything, the [try] block of [handleSubmit] throws, by the
    answer of [fetch]: the rejection, the error for a status that is not
    ok, or what reading the body throws. *)
Definition failure {JsValue} (env : Env JsValue) : option Exn :=
  match fetch_answer env with
  | FetchRejects error => Some error
  | Responds status body =>
      if ok status then
        match body with
        | inl error => Some error
        | inr _ => None
        end
      else Some (JsError (status_message status))
  end.

(** The action of the last error notification among some events. *)
Fixpoint retry_action (evs : list Event) : option Callback :=
  match evs with
  | [] => None
  | ev :: evs' =>
      match retry_action evs' with
      | Some cb => Some cb
      | None =>
          match ev with
          | EvToastError _ _ _ _ cb _ => Some cb
          | _ => None
          end
      end
  end.

(** The requests sent among some events: the URL in the body of each. *)
Fixpoint requested (evs : list Event) : list jsstring :=
  match evs with
  | [] => []
  | EvFetch _ _ _ body_url :: evs' => body_url :: requested evs'
  | _ :: evs' => requested evs'
  end.

(** The severities of the issues of a category, and their messages. *)
Definition severities {JsValue} (c : Category JsValue) : list Severity :=
  List.map severity (issues c).
Definition messages {JsValue} (c : Category JsValue) : list jsstring :=
  List.map message (issues c).

(** [sub] occurs in [s]. *)
Definition substring (sub s : jsstring) : Prop :=
  exists pre post, s = pre ++ sub ++ post.

End RemoteRuns.

(* ===================================================================== *)
(** ** How the analysis page displays a result *)
(* ===================================================================== *)

Module Display.

(** A number: finite (every finite double is a rational), infinite, or
    NaN. *)
Inductive jsnumber :=
  | Finite (q : QArith_base.Q)
  | PosInfinity
  | NegInfinity
  | NaN.

(** [a >= b] on numbers: false as soon as one side is NaN. *)
Definition num_ge (a b : jsnumber) : bool :=
  match a, b with
  | NaN, _ | _, NaN => false
  | PosInfinity, _ => true
  | _, NegInfinity => true
  | Finite x, Finite y => QArith_base.Qle_bool y x
  | Finite _, PosInfinity => false
  | NegInfinity, _ => false
  end.

Definition of_Z (z : Z) : jsnumber := Finite (QArith_base.inject_Z z).

Definition getScoreColorClass (score : jsnumber) : jsstring :=
  if num_ge score (of_Z 90) then lit "bg-green-50"
  else if num_ge score (of_Z 70) then lit "bg-yellow-50"
  else lit "bg-red-50".

Definition getSeverityColorClass (severity : jsstring) : jsstring :=
  if str_eqb severity (lit "high") then lit "text-red-600"
  else if str_eqb severity (lit "medium") then lit "text-yellow-600"
  else if str_eqb severity (lit "low") then lit "text-orange-600"
  else lit "text-blue-600".

(** The icon components the page imports and uses here. *)
Inductive IconName :=
  | Lock | Shield | Eye | AlertTriangle | Webhook | FileWarning
  | CheckCircle2 | XCircle | AlertOctagon.

(** An icon element with its [className]. *)
Record Icon := { component : IconName; className : jsstring }.

Definition getSeverityIcon (severity : jsstring) : Icon :=
  if str_eqb severity (lit "high") then
    {| component := XCircle; className := lit "h-5 w-5 shrink-0" |}
  else if str_eqb severity (lit "medium") then
    {| component := AlertTriangle; className := lit "h-5 w-5 shrink-0" |}
  else if str_eqb severity (lit "low") then
    {| component := AlertOctagon; className := lit "h-5 w-5 shrink-0" |}
  else
    {| component := CheckCircle2; className := lit "h-5 w-5 shrink-0" |}.

Definition getSecurityIcon (key : jsstring) : Icon :=
  if str_eqb key (lit "ssl") then
    {| component := Lock; className := lit "h-5 w-5" |}
  else if str_eqb key (lit "contentSecurity") then
    {| component := Shield; className := lit "h-5 w-5" |}
  else if str_eqb key (lit "vulnerabilities") then
    {| component := AlertTriangle; className := lit "h-5 w-5" |}
  else if str_eqb key (lit "phishing") then
    {| component := Eye; className := lit "h-5 w-5" |}
  else if str_eqb key (lit "malware") then
    {| component := FileWarning; className := lit "h-5 w-5" |}
  else if str_eqb key (lit "webAttacks") then
    {| component := Webhook; className := lit "h-5 w-5" |}
  else if str_eqb key (lit "certificateTransparency") then
    {| component := CheckCircle2; className := lit "h-5 w-5" |}
  else if str_eqb key (lit "libraries") then
    {| component := FileWarning; className := lit "h-5 w-5" |}
  else
    {| component := Shield; className := lit "h-5 w-5" |}.

(** The string a severity of the interface is. *)
Definition severity_name (s : Remote.Severity) : jsstring :=
  match s with
  | Remote.high => lit "high"
  | Remote.medium => lit "medium"
  | Remote.low => lit "low"
  | Remote.info => lit "info"
  end.

(** The letters [A-Z]. *)
Definition is_upper (c : N) : bool := (65 <=? c) && (c <=? 90).

(** [key.replace(/([A-Z])/g, ' $1')]: a space before every capital. *)
Fixpoint space_capitals (key : jsstring) : jsstring :=
  match key with
  | [] => []
  | c :: key' =>
      if is_upper c then 32 :: c :: space_capitals key'
      else c :: space_capitals key'
  end.

(** [s.split(' ')]: the pieces between the spaces, empty ones too; one
    empty piece for the empty string. *)
Fixpoint split_space (s : jsstring) : list jsstring :=
  match s with
  | [] => [[]]
  | c :: s' =>
      if c =? 32 then [] :: split_space s'
      else match split_space s' with
           | w :: ws => (c :: w) :: ws
           | [] => [[c]]
           end
  end.

(** [words.join(' ')]. *)
Fixpoint join_space (words : list jsstring) : jsstring :=
  match words with
  | [] => []
  | [w] => w
  | w :: ws => w ++ 32 :: join_space ws
  end.

(** [word.charAt(0)] and [word.slice(1)]. *)
Definition charAt0 (word : jsstring) : jsstring :=
  match word with
  | [] => []
  | c :: _ => [c]
  end.
Definition slice1 (word : jsstring) : jsstring := tl word.

(** The word begins with one of [A-Z]. *)
Definition starts_with_capital (word : jsstring) : bool :=
  match word with
  | c :: _ => is_upper c
  | [] => false
  end.

(** The keys of a result, in the order of [Object.entries]. *)
Definition category_keys : list jsstring :=
  [ lit "ssl"; lit "contentSecurity"; lit "vulnerabilities"; lit "phishing";
    lit "malware"; lit "webAttacks"; lit "certificateTransparency"; lit "libraries" ].

Section Titles.

(** [toUpperCase] of the language. *)
Variable toUpperCase : jsstring -> jsstring.

Definition formatTitle (key : jsstring) : jsstring :=
  join_space
    (List.map (fun word => toUpperCase (charAt0 word) ++ slice1 word)
       (split_space (space_capitals key))).

End Titles.

(** [toUpperCase] where it is used on ASCII only: the letters [a-z] go
    to [A-Z], every other unit stays. *)
Definition ascii_upper (s : jsstring) : jsstring :=
  List.map (fun c => if (97 <=? c) && (c <=? 122) then c - 32 else c) s.

End Display.

(* ===================================================================== *)
(** ** The first scanner widget: the placeholder detection *)
(* ===================================================================== *)

Module ScannerV1.

Import Scanner(MediaStream, getTracks, Event, EvConsoleError, EvUrlDetected,
               EvGetUserMedia, EvTrackStop).

(** The component's state: its two [useState] cells. *)
Record State := {
  isOpen : bool;
  stream : option MediaStream
}.

Record World := {
  st : State;
  live : gset nat;
  srcObject : option MediaStream;
  trace : list Event
}.

(** What the surroundings answer. *)
Record Env := {
  video : bool;                  (* videoRef.current is not null *)
  media : option MediaStream;    (* the answer to getUserMedia *)
  context2d : bool               (* canvas.getContext('2d') is not null *)
}.

Definition M := Eff.M World.

Definition emit (e : Event) : M unit :=
  fun w => (Normal tt, {| st := st w; live := live w;
                          srcObject := srcObject w; trace := trace w ++ [e] |}).

Definition setIsOpen (b : bool) : M unit :=
  fun w => (Normal tt, {| st := {| isOpen := b; stream := stream (st w) |};
                          live := live w; srcObject := srcObject w;
                          trace := trace w |}).

Definition setStream (v : option MediaStream) : M unit :=
  fun w => (Normal tt, {| st := {| isOpen := isOpen (st w); stream := v |};
                          live := live w; srcObject := srcObject w;
                          trace := trace w |}).

Definition track_stop (t : nat) : M unit :=
  fun w => (Normal tt, {| st := st w; live := live w ∖ {[t]};
                          srcObject := srcObject w;
                          trace := trace w ++ [EvTrackStop t] |}).

Definition getUserMedia (answer : option MediaStream) : M MediaStream :=
  fun w =>
    let w1 := {| st := st w; live := live w; srcObject := srcObject w;
                 trace := trace w ++ [EvGetUserMedia] |} in
    match answer with
    | Some ms =>
        (Normal ms, {| st := st w1; live := live w1 ∪ list_to_set (getTracks ms);
                       srcObject := srcObject w1; trace := trace w1 |})
    | None => (Thrown (JsError (lit "NotAllowedError")), w1)
    end.

Definition set_srcObject (ms : MediaStream) : M unit :=
  fun w => (Normal tt, {| st := st w; live := live w;
                          srcObject := Some ms; trace := trace w |}).

Section Handlers.

(** The render the handlers were created in. *)
Variable r : State.
Variable env : Env.

Definition startCamera : M unit :=
  try_catch
    (mediaStream <- getUserMedia (media env) ;;
     setStream (Some mediaStream) ;;
     if video env then set_srcObject mediaStream else ret tt)
    (fun error => emit (EvConsoleError (lit "Error accessing camera:"))).

Definition stopCamera : M unit :=
  match stream r with
  | Some s =>
      forEach (getTracks s) track_stop ;;
      setStream None
  | None => ret tt
  end.

Definition handleOpen : M unit :=
  setIsOpen true ;;
  call startCamera.

Definition handleClose : M unit :=
  setIsOpen false ;;
  call stopCamera.

(** This is a placeholder for actual URL/barcode detection: the frame
    is drawn and a detection simulated. *)
Definition captureImage : M unit :=
  if negb (video env) then return_ else
  if negb (context2d env) then return_ else
  call handleClose ;;
  emit (EvUrlDetected (lit "https://example.com")).

End Handlers.

(** A handler of the current render, run to its end. *)
Definition run (h : State -> M unit) (w : World) : World :=
  snd (h (st w) w).

Definition emitted (w w' : World) : list Event :=
  drop (length (trace w)) (trace w').

Definition held_tracks (s : State) : list nat :=
  match stream s with
  | Some ms => getTracks ms
  | None => []
  end.

(** The first widget, its dialog open on the live camera. *)
Definition live_world : World :=
  {| st := {| isOpen := true; stream := Some {| getTracks := [0%nat] |} |};
     live := {[ 0%nat ]};
     srcObject := Some {| getTracks := [0%nat] |};
     trace := [] |}.

(** The video element and a drawing context are there. *)
Definition env_ready : Env :=
  {| video := true; media := Some {| getTracks := [0%nat] |}; context2d := true |}.

(** Camera access is denied. *)
Definition env_denied : Env :=
  {| video := true; media := None; context2d := true |}.

End ScannerV1.

(* ===================================================================== *)
(** ** The page with the scanner in its form *)
(* ===================================================================== *)

Module PageWithScanner.
Import Remote.

(** [<UrlScanner onUrlDetected={handleUrlDetected} />]: the one call the
    scanner's handlers make into the page is that of its [onUrlDetected]
    prop. What the browser does with a click on the scanner's button as
    a control of the page's form is not part of this. *)
Definition deliver {JsValue} (ev : Scanner.Event) : Remote.M JsValue unit :=
  match ev with
  | Scanner.EvUrlDetected detectedUrl => handleUrlDetected JsValue detectedUrl
  | _ => ret tt
  end.

Definition deliver_all {JsValue} (evs : list Scanner.Event) (w : World JsValue)
    : World JsValue :=
  snd (forEach evs deliver w).

End PageWithScanner.

(* ===================================================================== *)
(** ** Sessions with the mock page *)
(* ===================================================================== *)

Module MockRuns.
Import Mock.

(** The form is submitted once for each event of [es], in order. *)
Definition submit_all (es : list nat) (w : World) : World :=
  fold_left (fun w0 e => handleSubmit e w0) es w.

(** Every pending timer fires. *)
Definition fire_all (w : World) : World :=
  Nat.iter (length (timers w)) fire w.

End MockRuns.

(* ===================================================================== *)
(** ** Opening the scanner, in its two halves *)
(* ===================================================================== *)

Module ScannerAsync.
Import Scanner.

(** [handleOpen] up to where [startCamera] awaits the camera: the dialog
    is opened, the readiness flag reset and the request sent. The
    handler returns here; the dialog is shown with its controls while
    the request is pending. *)
Definition handleOpen_request : M unit :=
  setIsOpen true ;;
  setIsCameraReady false ;;
  emit EvGetUserMedia.

(** The tracks of a granted stream come live. *)
Definition grant (ms : MediaStream) : M unit :=
  fun w => (Normal tt, {| st := st w; live := live w ∪ list_to_set (getTracks ms);
                          srcObject := srcObject w; trace := trace w |}).

(** [startCamera] from the answer of the camera on: the rest of its
    [try] block when a stream is granted, its [catch] block when the
    request is rejected. *)
Definition startCamera_resume (env : Env) : M unit :=
  match media env with
  | Some mediaStream =>
      grant mediaStream ;;
      setStream (Some mediaStream) ;;
      match video env with
      | Some _ => set_srcObject mediaStream
      | None => ret tt
      end
  | None =>
      console_error (lit "Error accessing camera:") ;;
      alert (lit "Unable to access camera. Please make sure you have granted camera permissions.")
  end.

End ScannerAsync.

(* ===================================================================== *)
(** ** Facts about the URL pattern *)
(* ===================================================================== *)

Module UrlFacts.
Import Url.

Lemma unit_eqb_eq a b : unit_eqb a b = true <-> a = b.
Proof. unfold unit_eqb. apply N.eqb_eq. Qed.

Lemma strip_prefix_spec p s t : strip_prefix p s = Some t <-> s = p ++ t.
Proof.
  revert s. induction p as [|x p IH]; intros s; simpl.
  - split; congruence.
  - destruct s as [|y s]; [split; discriminate|].
    destruct (unit_eqb x y) eqn:E.
    + apply unit_eqb_eq in E. subst y. rewrite IH. split; congruence.
    + split; [discriminate|]. intros [= -> _].
      assert (unit_eqb x x = true) by now apply unit_eqb_eq. congruence.
Qed.

Lemma strip_prefix_app p t : strip_prefix p (p ++ t) = Some t.
Proof. now apply strip_prefix_spec. Qed.

(** A literal matches as a prefix and never backtracks. *)
Lemma bt_chars l r s k :
  bt (chars l r) s k =
  match strip_prefix l s with
  | Some s' => bt r s' k
  | None => None
  end.
Proof.
  revert s. induction l as [|c l IH]; intros s; simpl; [reflexivity|].
  destruct s as [|y s]; [reflexivity|].
  destruct (unit_eqb c y); [apply IH | reflexivity].
Qed.

(** A greedy run of non-whitespace with nothing after it to satisfy
    takes the whole run. *)
Lemma plus_bt_run s :
  plus_bt NotSpace s (fun rest => Some rest) =
  match s with
  | [] => None
  | c :: s' => if is_space c then None else Some (after_run s')
  end.
Proof.
  induction s as [|c s IH]; simpl; [reflexivity|].
  destruct (is_space c); simpl; [reflexivity|].
  rewrite IH. destruct s as [|d s]; simpl; [reflexivity|].
  destruct (is_space d); reflexivity.
Qed.

Lemma after_run_split s :
  exists body,
    s = body ++ after_run s /\
    Forall (fun c => is_space c = false) body /\
    (after_run s = [] \/ exists c t, after_run s = c :: t /\ is_space c = true).
Proof.
  induction s as [|c s (body & Hs & Hb & Hr)]; simpl.
  - exists []. auto.
  - destruct (is_space c) eqn:E.
    + exists []. simpl. split; [reflexivity|]. split; [constructor|]. right. eauto.
    + exists (c :: body). simpl. split; [congruence|]. split; [now constructor | assumption].
Qed.

(** A run of non-whitespace at the start of [s] ends before
    [after_run s] does. *)
Lemma after_run_longest body t :
  Forall (fun c => is_space c = false) body ->
  (length (after_run (body ++ t)) <= length t)%nat.
Proof.
  induction 1 as [|c body Hc _ IH]; simpl.
  - induction t as [|d t IHt]; simpl; [lia|].
    destruct (is_space d); simpl; lia.
  - rewrite Hc. exact IH.
Qed.

Lemma after_scheme_spec s t :
  after_scheme s = Some t <->
  exists scheme, (scheme = lit "http" \/ scheme = lit "https") /\
                 s = scheme ++ lit "://" ++ t.
Proof.
  unfold after_scheme. split.
  - destruct (strip_prefix (lit "http") s) as [s1|] eqn:E1; [|discriminate].
    apply strip_prefix_spec in E1. destruct s1 as [|c s2]; [discriminate|].
    destruct (unit_eqb 115 c) eqn:Ec; intros H; apply strip_prefix_spec in H.
    + apply unit_eqb_eq in Ec. subst c. exists (lit "https"). subst. auto.
    + exists (lit "http"). rewrite E1, H. auto.
  - intros (scheme & [->| ->] & ->).
    + change (lit "http" ++ lit "://" ++ t) with (lit "http" ++ (lit "://" ++ t)).
      rewrite strip_prefix_app. change (lit "://" ++ t) with (58 :: (lit "//" ++ t)) at 1.
      change (unit_eqb 115 58) with false. cbv iota.
      change (58 :: lit "//" ++ t) with (lit "://" ++ t). apply strip_prefix_app.
    + change (lit "https" ++ lit "://" ++ t) with (lit "http" ++ (115 :: (lit "://" ++ t))).
      rewrite strip_prefix_app. change (unit_eqb 115 115) with true. cbv iota.
      apply strip_prefix_app.
Qed.

(** The expression of the scanner, attempted at the start of [s]. *)
Lemma bt_urlRegex s :
  bt Scanner.urlRegex s (fun rest => Some rest) =
  match after_scheme s with
  | Some (c :: t) => if is_space c then None else Some (after_run t)
  | _ => None
  end.
Proof.
  unfold Scanner.urlRegex, after_scheme. cbn [bt]. rewrite bt_chars.
  destruct (strip_prefix (lit "http") s) as [s1|]; [|reflexivity].
  cbn [bt]. destruct s1 as [|c s2].
  - rewrite bt_chars. reflexivity.
  - cbn [atom_ok]. destruct (unit_eqb 115 c) eqn:Ec.
    + apply unit_eqb_eq in Ec. subst c. rewrite !bt_chars.
      change (strip_prefix (lit "://") (115 :: s2)) with (@None jsstring).
      destruct (strip_prefix (lit "://") s2) as [s3|]; [|reflexivity].
      cbn [bt]. rewrite plus_bt_run.
      destruct s3 as [|d t]; [reflexivity|]. destruct (is_space d); reflexivity.
    + rewrite bt_chars.
      destruct (strip_prefix (lit "://") (c :: s2)) as [s3|]; [|reflexivity].
      cbn [bt]. rewrite plus_bt_run. reflexivity.
Qed.

Lemma app_length_cancel (a b c : jsstring) :
  a = b ++ c -> (length a - length c)%nat = length b.
Proof. intros ->. rewrite length_app. lia. Qed.

(** What one attempt returns is a match, as long as a match from there
    can be. *)
Lemma exec_at_sound s u :
  exec_at Scanner.urlRegex s = Some u ->
  url_pattern u /\
  exists rest, s = u ++ rest /\
    (rest = [] \/ exists c t, rest = c :: t /\ is_space c = true).
Proof.
  unfold exec_at. rewrite bt_urlRegex.
  destruct (after_scheme s) as [[|c t]|] eqn:E; try discriminate.
  destruct (is_space c) eqn:Ec; [discriminate|]. intros [= <-].
  apply after_scheme_spec in E. destruct E as (scheme & Hscheme & ->).
  destruct (after_run_split t) as (body & Ht & Hbody & Hrest).
  assert (Hs : scheme ++ lit "://" ++ c :: t
               = (scheme ++ lit "://" ++ c :: body) ++ after_run t).
  { rewrite Ht at 1. rewrite <- !app_assoc. reflexivity. }
  rewrite (app_length_cancel _ _ _ Hs).
  assert (Htake : take (length (scheme ++ lit "://" ++ c :: body))
                    (scheme ++ lit "://" ++ c :: t)
                  = scheme ++ lit "://" ++ c :: body).
  { rewrite Hs. apply take_app_length. }
  rewrite Htake. split.
  - exists scheme, (c :: body). repeat split; auto; discriminate.
  - exists (after_run t). split; [exact Hs | exact Hrest].
Qed.

(** Where a match starts, the attempt succeeds. *)
Lemma exec_at_complete s v post :
  s = v ++ post -> url_pattern v ->
  exists u, exec_at Scanner.urlRegex s = Some u /\ (length v <= length u)%nat.
Proof.
  intros -> (scheme & body & Hscheme & Hne & Hbody & ->).
  destruct body as [|c body]; [congruence|].
  assert (E : after_scheme ((scheme ++ lit "://" ++ c :: body) ++ post)
              = Some (c :: body ++ post)).
  { apply after_scheme_spec. exists scheme. split; [exact Hscheme|].
    rewrite <- !app_assoc. reflexivity. }
  unfold exec_at. rewrite bt_urlRegex, E.
  inversion Hbody as [|? ? Hc Hbody']; subst. rewrite Hc.
  eexists. split; [reflexivity|].
  rewrite length_take.
  pose proof (after_run_longest body post Hbody') as Hlen.
  rewrite !length_app. simpl. rewrite ?length_app. simpl. lia.
Qed.

Lemma exec_at_none s :
  exec_at Scanner.urlRegex s = None ->
  forall v post, s = v ++ post -> ~ url_pattern v.
Proof.
  intros Hnone v post Hs Hv.
  destruct (exec_at_complete s v post Hs Hv) as (u & Hu & _). congruence.
Qed.

(** The first element of the array [match] returns is the attempt at the
    leftmost place where an attempt succeeds. *)
Lemma match_all_head r s m ms :
  match_all r s 0 = m :: ms ->
  exists pre suf,
    s = pre ++ suf /\ exec_at r suf = Some m /\
    forall pre' suf', s = pre' ++ suf' -> (length pre' < length pre)%nat ->
                      exec_at r suf' = None.
Proof.
  induction s as [|c s IH]; simpl.
  - destruct (exec_at r []) as [m'|] eqn:E; [|discriminate].
    intros [= <- _]. exists [], []. repeat split; auto. simpl. lia.
  - destruct (exec_at r (c :: s)) as [m'|] eqn:E.
    + intros [= <- _]. exists [], (c :: s). repeat split; auto. simpl. lia.
    + intros H. destruct (IH H) as (pre & suf & -> & Hsuf & Hleft).
      exists (c :: pre), suf. repeat split; auto.
      intros [|d pre'] suf' Heq Hlen; simpl in *.
      * subst suf'. exact E.
      * injection Heq as -> Heq. apply (Hleft pre' suf' Heq). lia.
Qed.

Lemma match_all_nil r s :
  match_all r s 0 = [] ->
  forall pre suf, s = pre ++ suf -> exec_at r suf = None.
Proof.
  induction s as [|c s IH]; simpl.
  - destruct (exec_at r []) eqn:E; [discriminate|].
    intros _ [|] suf; simpl; [intros <-; exact E | discriminate].
  - destruct (exec_at r (c :: s)) eqn:E; [discriminate|].
    intros H [|d pre] suf; simpl.
    + intros <-. exact E.
    + intros [= _ Heq]. now apply (IH H pre suf).
Qed.

(** With a match in the text, [match] returns an array whose first
    element is the first match. *)
Lemma js_match_first text :
  contains_url text ->
  exists pre u ms,
    js_match Scanner.urlRegex text = Some (u :: ms) /\ first_url text pre u.
Proof.
  intros (pre0 & u0 & post0 & Htext & Hu0).
  unfold js_match.
  destruct (match_all Scanner.urlRegex text 0) as [|u ms] eqn:E.
  - exfalso. pose proof (match_all_nil _ _ E pre0 (u0 ++ post0) Htext) as Hnone.
    exact (exec_at_none _ Hnone u0 post0 eq_refl Hu0).
  - destruct (match_all_head _ _ _ _ E) as (pre & suf & Hsplit & Hexec & Hleft).
    destruct (exec_at_sound _ _ Hexec) as (Hu & rest & Hsuf & _).
    exists pre, u, ms. split; [reflexivity|]. split; [|split].
    + exists rest. split; [congruence | exact Hu].
    + intros pre' u' (post' & Htext' & Hu').
      destruct (Nat.le_gt_cases (length pre) (length pre')) as [|Hlt]; [assumption|].
      exfalso.
      pose proof (Hleft pre' (u' ++ post') Htext' Hlt) as Hnone.
      exact (exec_at_none _ Hnone u' post' eq_refl Hu').
    + intros u' (post' & Htext' & Hu').
      rewrite Hsplit in Htext'. apply app_inv_head in Htext'.
      destruct (exec_at_complete suf u' post' Htext' Hu') as (u2 & Hu2 & Hlen).
      congruence.
Qed.

(** Without a match in the text, [match] returns [null]. *)
Lemma js_match_none text :
  ~ contains_url text -> js_match Scanner.urlRegex text = None.
Proof.
  intros Hno. unfold js_match.
  destruct (match_all Scanner.urlRegex text 0) as [|u ms] eqn:E; [reflexivity|].
  exfalso. apply Hno.
  destruct (match_all_head _ _ _ _ E) as (pre & suf & Hsplit & Hexec & _).
  destruct (exec_at_sound _ _ Hexec) as (Hu & rest & Hsuf & _).
  exists pre, u, rest. split; [congruence | exact Hu].
Qed.

End UrlFacts.

(* ===================================================================== *)
(** ** Facts about the scanner widget *)
(* ===================================================================== *)

Module ScannerFacts.
Import Scanner Url UrlFacts.

(** Stopping the tracks of a stream one by one ends exactly them. *)
Lemma forEach_track_stop l w :
  forEach l track_stop w =
  (Normal tt, {| st := st w; live := live w ∖ list_to_set l;
                 srcObject := srcObject w;
                 trace := trace w ++ List.map EvTrackStop l |}).
Proof.
  revert w. induction l as [|t l IH]; intros [s lv so tr]; simpl.
  - unfold ret. f_equal. f_equal; [apply eq_sym, difference_empty_L | now rewrite app_nil_r].
  - unfold bind, track_stop at 1. simpl. rewrite IH. simpl.
    f_equal. f_equal; [apply difference_difference_l_L | now rewrite <- app_assoc].
Qed.

(** [stopCamera] of the render [r], in one step. *)
Lemma stopCamera_run r w :
  stopCamera r w =
  (Normal tt,
   {| st := {| isOpen := isOpen (st w); isProcessing := isProcessing (st w);
               stream := match stream r with Some _ => None | None => stream (st w) end;
               capturedImage := None; isCameraReady := false |};
      live := live w ∖ list_to_set (held_tracks r);
      srcObject := srcObject w;
      trace := trace w ++ List.map EvTrackStop (held_tracks r) |}).
Proof.
  unfold stopCamera, held_tracks. destruct (stream r) as [ms|].
  - unfold bind at 1 2. unfold bind at 1. rewrite forEach_track_stop. reflexivity.
  - destruct w as [s lv so tr]. unfold bind, ret, setCapturedImage, setIsCameraReady, modify.
    simpl. f_equal. f_equal; [apply eq_sym, difference_empty_L | now rewrite app_nil_r].
Qed.

Lemma handleClose_run r w :
  handleClose r w =
  (Normal tt,
   {| st := {| isOpen := false; isProcessing := isProcessing (st w);
               stream := match stream r with Some _ => None | None => stream (st w) end;
               capturedImage := None; isCameraReady := false |};
      live := live w ∖ list_to_set (held_tracks r);
      srcObject := srcObject w;
      trace := trace w ++ List.map EvTrackStop (held_tracks r) |}).
Proof.
  unfold handleClose, bind, call. unfold setIsOpen at 1, modify.
  rewrite stopCamera_run. reflexivity.
Qed.

Lemma ocr_step_ok env stage arg w :
  ocr_fails env = None ->
  ocr_step env stage arg w =
  (Normal tt, {| st := st w; live := live w; srcObject := srcObject w;
                 trace := trace w ++ [EvOcr stage arg] |}).
Proof. intros H. unfold ocr_step, bind, emit. rewrite H. reflexivity. Qed.

Lemma emitted_app w w' evs :
  trace w' = trace w ++ evs -> emitted w w' = evs.
Proof. intros H. unfold emitted. rewrite H. apply drop_app_length. Qed.

(** C1. Confirming a captured image whose recognized text contains a
    match of [https?://] followed by non-whitespace reports, through
    [onUrlDetected], exactly the first match of the text (the leftmost
    one, up to the next whitespace), once; after the report the dialog
    is closed and the camera stream released: the state holds no stream
    and none of the tracks it held is live. *)
Theorem confirm_reports_first_url env w :
  truthy (capturedImage (st w)) = true ->
  ocr_fails env = None ->
  contains_url (ocr_text env) ->
  let w' := run (fun r => confirmImage r env) w in
  exists pre url,
    first_url (ocr_text env) pre url /\
    emitted w w' =
      ocr_events (default [] (capturedImage (st w)))
      ++ [EvConsoleLog (lit "Detected URL:") url; EvUrlDetected url]
      ++ List.map EvTrackStop (held_tracks (st w)) /\
    isOpen (st w') = false /\
    stream (st w') = None /\
    capturedImage (st w') = None /\
    isCameraReady (st w') = false /\
    isProcessing (st w') = false /\
    live w' = live w ∖ list_to_set (held_tracks (st w)) /\
    Forall (fun t => t ∉ live w') (held_tracks (st w)).
Proof.
  intros Himg Hocr Hurl w'.
  destruct (js_match_first _ Hurl) as (pre & url & ms & Hmatch & Hfirst).
  exists pre, url. split; [exact Hfirst|].
  assert (Hrun : w' =
    {| st := {| isOpen := false; isProcessing := false; stream := None;
                capturedImage := None; isCameraReady := false |};
       live := live w ∖ list_to_set (held_tracks (st w));
       srcObject := srcObject w;
       trace := trace w ++ ocr_events (default [] (capturedImage (st w)))
                ++ [EvConsoleLog (lit "Detected URL:") url; EvUrlDetected url]
                ++ List.map EvTrackStop (held_tracks (st w)) |}).
  { subst w'. unfold run, confirmImage. rewrite Himg.
    unfold try_catch_finally, try_catch, bind.
    unfold setIsProcessing at 1, modify.
    rewrite !(ocr_step_ok env _ _ _ Hocr). cbn [trace st live srcObject].
    rewrite Hmatch. unfold console_log, onUrlDetected, emit, call.
    rewrite handleClose_run. cbn.
    destruct (stream (st w)); rewrite <- !app_assoc; reflexivity. }
  rewrite Hrun. cbn [st live isOpen stream capturedImage isCameraReady isProcessing].
  repeat split.
  - apply emitted_app. reflexivity.
  - apply Forall_forall. intros t Ht [_ Hn]%elem_of_difference.
    apply Hn. now apply elem_of_list_to_set.
Qed.

Lemma text_with_url_contains : contains_url Samples.text_with_url.
Proof.
  exists (lit "visit "), (lit "https://example.com"), (lit " today").
  split; [reflexivity|].
  exists (lit "https"), (lit "example.com").
  split; [now right|]. split; [discriminate|].
  split; [repeat constructor | reflexivity].
Qed.

Lemma confirm_reports_first_url_witness :
  truthy (capturedImage (st Samples.captured_world)) = true /\
  ocr_fails (Samples.env_text Samples.text_with_url) = None /\
  contains_url (ocr_text (Samples.env_text Samples.text_with_url)) /\
  exists pre url,
    first_url Samples.text_with_url pre url /\
    isOpen (st (run (fun r => confirmImage r (Samples.env_text Samples.text_with_url))
                    Samples.captured_world)) = false.
Proof.
  split; [reflexivity|]. split; [reflexivity|].
  split; [exact text_with_url_contains|].
  destruct (confirm_reports_first_url
              (Samples.env_text Samples.text_with_url) Samples.captured_world
              eq_refl eq_refl text_with_url_contains)
    as (pre & url & Hfirst & _ & Hclosed & _).
  exists pre, url. split; [exact Hfirst | exact Hclosed].
Defined.

(** C4. Confirming a captured image whose recognized text contains no
    match alerts the user that no URL was detected, reports no URL, and
    leaves the captured image, the stream (absent if it was absent), the
    dialog and the device as they were; only the processing flag is
    reset. *)
Theorem confirm_without_url env w :
  truthy (capturedImage (st w)) = true ->
  ocr_fails env = None ->
  ~ contains_url (ocr_text env) ->
  let w' := run (fun r => confirmImage r env) w in
  emitted w w' =
    ocr_events (default [] (capturedImage (st w)))
    ++ [EvAlert (lit "No URL detected in the image. Please try again.")] /\
  capturedImage (st w') = capturedImage (st w) /\
  stream (st w') = stream (st w) /\
  (stream (st w) = None -> stream (st w') = None) /\
  isOpen (st w') = isOpen (st w) /\
  isCameraReady (st w') = isCameraReady (st w) /\
  isProcessing (st w') = false /\
  live w' = live w.
Proof.
  intros Himg Hocr Hno w'.
  assert (Hrun : w' =
    {| st := {| isOpen := isOpen (st w); isProcessing := false;
                stream := stream (st w); capturedImage := capturedImage (st w);
                isCameraReady := isCameraReady (st w) |};
       live := live w; srcObject := srcObject w;
       trace := trace w ++ ocr_events (default [] (capturedImage (st w)))
                ++ [EvAlert (lit "No URL detected in the image. Please try again.")] |}).
  { subst w'. unfold run, confirmImage. rewrite Himg.
    unfold try_catch_finally, try_catch, bind.
    unfold setIsProcessing at 1, modify.
    rewrite !(ocr_step_ok env _ _ _ Hocr). cbn [trace st live srcObject].
    rewrite (js_match_none _ Hno). unfold alert, emit. cbn.
    rewrite <- !app_assoc. reflexivity. }
  rewrite Hrun. cbn [st live isOpen stream capturedImage isCameraReady isProcessing].
  repeat split; auto. apply emitted_app. reflexivity.
Qed.

(** A text on which [match] returns [null] contains no match. *)
Lemma js_match_null_clean text :
  js_match urlRegex text = None -> ~ contains_url text.
Proof.
  intros Hnull Hc. destruct (js_match_first _ Hc) as (pre & u & ms & Hm & _).
  congruence.
Qed.

Lemma text_without_url_clean : ~ contains_url Samples.text_without_url.
Proof. apply js_match_null_clean. reflexivity. Qed.

Lemma confirm_without_url_witness :
  truthy (capturedImage (st Samples.captured_world)) = true /\
  ocr_fails (Samples.env_text Samples.text_without_url) = None /\
  ~ contains_url (ocr_text (Samples.env_text Samples.text_without_url)) /\
  capturedImage
    (st (run (fun r => confirmImage r (Samples.env_text Samples.text_without_url))
             Samples.captured_world))
  = Some Samples.frame.
Proof.
  split; [reflexivity|]. split; [reflexivity|].
  split; [exact text_without_url_clean|].
  destruct (confirm_without_url
              (Samples.env_text Samples.text_without_url) Samples.captured_world
              eq_refl eq_refl text_without_url_clean)
    as (_ & Himg & _).
  exact Himg.
Defined.

(** C10. Confirming while no captured image is held does nothing: the
    handler ends normally and the world is the same, so no recognition
    call is issued, no URL reported, no alert raised, and every state
    cell is as it was. *)
Theorem confirm_without_image env w :
  capturedImage (st w) = None ->
  confirmImage (st w) env w = (Normal tt, w) /\
  run (fun r => confirmImage r env) w = w /\
  emitted w (run (fun r => confirmImage r env) w) = [].
Proof.
  intros Hnone. unfold run, confirmImage. rewrite Hnone. cbn.
  repeat split. unfold emitted. apply drop_all.
Qed.

Lemma confirm_without_image_witness :
  capturedImage (st (Samples.live_world true)) = None /\
  run (fun r => confirmImage r (Samples.env_text Samples.text_with_url))
      (Samples.live_world true)
  = Samples.live_world true.
Proof.
  split; [reflexivity|].
  exact (proj1 (proj2 (confirm_without_image
                         (Samples.env_text Samples.text_with_url)
                         (Samples.live_world true) eq_refl))).
Defined.

(** *** Capture *)

(** A capture that passes every test: the image is set, and then
    [stopCamera] releases the stream and sets the image to [null]. *)
Lemma captureImage_success r env w v :
  video env = Some v ->
  isCameraReady r = true ->
  context2d env = true ->
  readyState v = HAVE_ENOUGH_DATA ->
  (100 < length (toDataURL env (canvas_width v) (canvas_height v)))%nat ->
  captureImage r env w =
  (Normal tt,
   {| st := {| isOpen := isOpen (st w); isProcessing := false;
               stream := match stream r with Some _ => None | None => stream (st w) end;
               capturedImage := None; isCameraReady := false |};
      live := live w ∖ list_to_set (held_tracks r);
      srcObject := srcObject w;
      trace := trace w ++ List.map EvTrackStop (held_tracks r) |}).
Proof.
  intros Hv Hready Hctx Hstate Hlen.
  unfold captureImage. rewrite Hv, Hready, Hctx, Hstate. cbn [negb].
  fold (canvas_width v) (canvas_height v).
  change (HAVE_ENOUGH_DATA =? HAVE_ENOUGH_DATA) with true. cbv iota.
  assert (Hbig : (100 <? length (toDataURL env (canvas_width v) (canvas_height v)))%nat = true)
    by now apply Nat.ltb_lt.
  assert (Htruthy : truthy (Some (toDataURL env (canvas_width v) (canvas_height v))) = true).
  { destruct (toDataURL env (canvas_width v) (canvas_height v)); [simpl in Hlen; lia | reflexivity]. }
  rewrite Htruthy, Hbig. cbn [andb].
  unfold try_catch_finally, try_catch, bind, call.
  unfold setIsProcessing at 1, setCapturedImage at 1, modify.
  rewrite stopCamera_run. reflexivity.
Qed.

(** A capture that fails a test inside the [try] block: the error is
    caught and alerted, the image reset, nothing else touched. *)
Lemma captureImage_failure r env w v :
  video env = Some v ->
  isCameraReady r = true ->
  context2d env = true ->
  readyState v <> HAVE_ENOUGH_DATA \/
  (length (toDataURL env (canvas_width v) (canvas_height v)) <= 100)%nat ->
  captureImage r env w =
  (Normal tt,
   {| st := {| isOpen := isOpen (st w); isProcessing := false;
               stream := stream (st w);
               capturedImage := None; isCameraReady := isCameraReady (st w) |};
      live := live w; srcObject := srcObject w;
      trace := trace w ++ [EvConsoleError (lit "Error capturing image:");
                           EvAlert (lit "Error capturing image. Please try again.")] |}).
Proof.
  intros Hv Hready Hctx Hfail.
  unfold captureImage. rewrite Hv, Hready, Hctx. cbn [negb].
  fold (canvas_width v) (canvas_height v).
  assert (Hthrown : exists message,
    (if readyState v =? HAVE_ENOUGH_DATA
     then if truthy (Some (toDataURL env (canvas_width v) (canvas_height v)))
             && (100 <? length (toDataURL env (canvas_width v) (canvas_height v)))%nat
          then setCapturedImage (Some (toDataURL env (canvas_width v) (canvas_height v)));;
               call (stopCamera r)
          else throw (JsError (lit "Failed to capture image"))
     else throw (JsError (lit "Video not ready")))
    = throw (JsError message)).
  { destruct (readyState v =? HAVE_ENOUGH_DATA) eqn:E; [|eauto].
    apply N.eqb_eq in E. destruct Hfail as [Hne|Hsmall]; [congruence|].
    apply Nat.ltb_ge in Hsmall. rewrite Hsmall, andb_false_r. eauto. }
  destruct Hthrown as (message & ->).
  unfold try_catch_finally, try_catch, bind, throw.
  unfold setIsProcessing, setCapturedImage, console_error, alert, emit, modify. cbn.
  rewrite <- app_assoc. reflexivity.
Qed.

(** Before the video is ready the capture handler returns at once. *)
Lemma captureImage_not_ready r env w :
  video env = None \/ isCameraReady r = false ->
  captureImage r env w = (Returned, w).
Proof.
  intros [Hv|Hready]; unfold captureImage.
  - rewrite Hv. reflexivity.
  - rewrite Hready. destruct (video env); reflexivity.
Qed.

(** Without a drawing context the handler returns from inside the [try]
    block; the [finally] block still resets the processing flag. *)
Lemma captureImage_no_context r env w v :
  video env = Some v ->
  isCameraReady r = true ->
  context2d env = false ->
  captureImage r env w =
  (Returned,
   {| st := {| isOpen := isOpen (st w); isProcessing := false;
               stream := stream (st w); capturedImage := capturedImage (st w);
               isCameraReady := isCameraReady (st w) |};
      live := live w; srcObject := srcObject w; trace := trace w |}).
Proof.
  intros Hv Hready Hctx. unfold captureImage. rewrite Hv, Hready, Hctx. reflexivity.
Qed.

(** *** Opening *)

Lemma startCamera_granted env w ms :
  media env = Some ms ->
  startCamera env w =
  (Normal tt,
   {| st := {| isOpen := isOpen (st w); isProcessing := isProcessing (st w);
               stream := Some ms; capturedImage := capturedImage (st w);
               isCameraReady := false |};
      live := live w ∪ list_to_set (getTracks ms);
      srcObject := match video env with Some _ => Some ms | None => srcObject w end;
      trace := trace w ++ [EvGetUserMedia] |}).
Proof.
  intros Hm. unfold startCamera, try_catch, bind, getUserMedia. rewrite Hm.
  unfold setIsCameraReady, setStream, modify. cbn.
  destruct (video env); reflexivity.
Qed.

Lemma startCamera_denied env w :
  media env = None ->
  startCamera env w =
  (Normal tt,
   {| st := {| isOpen := isOpen (st w); isProcessing := isProcessing (st w);
               stream := stream (st w); capturedImage := capturedImage (st w);
               isCameraReady := false |};
      live := live w; srcObject := srcObject w;
      trace := trace w ++
        [EvGetUserMedia; EvConsoleError (lit "Error accessing camera:");
         EvAlert (lit "Unable to access camera. Please make sure you have granted camera permissions.")] |}).
Proof.
  intros Hm. unfold startCamera, try_catch, bind, getUserMedia. rewrite Hm.
  unfold setIsCameraReady, console_error, alert, emit, modify. cbn.
  rewrite <- !app_assoc. reflexivity.
Qed.

Lemma handleOpen_granted env w ms :
  media env = Some ms ->
  handleOpen env w =
  (Normal tt,
   {| st := {| isOpen := true; isProcessing := isProcessing (st w);
               stream := Some ms; capturedImage := capturedImage (st w);
               isCameraReady := false |};
      live := live w ∪ list_to_set (getTracks ms);
      srcObject := match video env with Some _ => Some ms | None => srcObject w end;
      trace := trace w ++ [EvGetUserMedia] |}).
Proof.
  intros Hm. unfold handleOpen, bind, call. unfold setIsOpen at 1, modify.
  rewrite (startCamera_granted _ _ ms Hm). reflexivity.
Qed.

Lemma handleOpen_denied env w :
  media env = None ->
  handleOpen env w =
  (Normal tt,
   {| st := {| isOpen := true; isProcessing := isProcessing (st w);
               stream := stream (st w); capturedImage := capturedImage (st w);
               isCameraReady := false |};
      live := live w; srcObject := srcObject w;
      trace := trace w ++
        [EvGetUserMedia; EvConsoleError (lit "Error accessing camera:");
         EvAlert (lit "Unable to access camera. Please make sure you have granted camera permissions.")] |}).
Proof.
  intros Hm. unfold handleOpen, bind, call. unfold setIsOpen at 1, modify.
  rewrite (startCamera_denied _ _ Hm). reflexivity.
Qed.

(** C3, at a concrete input. The user has opened the scanner, the camera
    was granted and its video has loaded; the video has buffered enough
    and the frame encodes to 123 units. The capture passes every test
    and the stream is released, but the state holds no image:
    [stopCamera], called right after [setCapturedImage(imageData)], sets
    the image back to [null]. *)
Theorem capture_success_discards_image :
  let w := Samples.opened_world in
  let w' := dispatch (Samples.env_text []) ClickRight w in
  reachable w /\
  enabled (st w) ClickRight = true /\
  stream (st w) = Some Samples.cam /\
  (100 < length Samples.frame)%nat /\
  capturedImage (st w') = None /\
  stream (st w') = None /\
  live w' = ∅ /\
  isOpen (st w') = true /\
  isCameraReady (st w') = false /\
  emitted w w' = [EvTrackStop 0].
Proof.
  cbv zeta. split.
  { unfold Samples.opened_world. apply reach_step; [|reflexivity].
    apply reach_step; [apply reach_start | reflexivity]. }
  split; [reflexivity|]. split; [reflexivity|]. split; [simpl; lia|].
  repeat split; reflexivity.
Qed.

(** C5, refuted where the readiness flag is false: the capture handler
    returns before its [try] block, so no alert is raised. *)
Lemma capture_unready_raises_no_alert :
  let w := Samples.live_world false in
  let w' := run (fun r => captureImage r (Samples.env_text [])) w in
  isCameraReady (st w) = false /\
  ~ exists msg, In (EvAlert msg) (emitted w w').
Proof.
  cbv zeta. split; [reflexivity|]. intros (msg & H). exact H.
Qed.

(** C5, amended. A capture requested on a ready video fails when the
    video has not buffered enough or the encoded frame is empty or at
    most 100 units long; the failure is alerted, and the camera session
    stays as it was: same stream, same live tracks, same readiness, the
    dialog as before. When the readiness flag is false the handler
    returns at once, alerting nothing and changing nothing. *)
Theorem capture_failure_keeps_camera env w v :
  video env = Some v ->
  (isCameraReady (st w) = false ->
     captureImage (st w) env w = (Returned, w)) /\
  (isCameraReady (st w) = true ->
   context2d env = true ->
   readyState v <> HAVE_ENOUGH_DATA \/
   (length (toDataURL env (canvas_width v) (canvas_height v)) <= 100)%nat ->
   let w' := run (fun r => captureImage r env) w in
   emitted w w' = [EvConsoleError (lit "Error capturing image:");
                   EvAlert (lit "Error capturing image. Please try again.")] /\
   stream (st w') = stream (st w) /\
   live w' = live w /\
   isCameraReady (st w') = isCameraReady (st w) /\
   isOpen (st w') = isOpen (st w) /\
   capturedImage (st w') = None /\
   isProcessing (st w') = false).
Proof.
  intros Hv. split.
  - intros Hready. apply captureImage_not_ready. now right.
  - intros Hready Hctx Hfail w'. subst w'. unfold run.
    rewrite (captureImage_failure _ _ _ v Hv Hready Hctx Hfail). cbn.
    repeat split. apply emitted_app. reflexivity.
Qed.

Lemma capture_failure_keeps_camera_witness :
  video Samples.env_buffering
  = Some {| videoWidth := 1280; videoHeight := 720;
            clientWidth := 640; clientHeight := 360; readyState := 2 |} /\
  isCameraReady (st (Samples.live_world true)) = true /\
  context2d Samples.env_buffering = true /\
  (2 <> HAVE_ENOUGH_DATA) /\
  stream (st (run (fun r => captureImage r Samples.env_buffering)
                  (Samples.live_world true)))
  = Some Samples.cam.
Proof.
  split; [reflexivity|]. split; [reflexivity|]. split; [reflexivity|].
  split; [discriminate|].
  destruct (capture_failure_keeps_camera Samples.env_buffering
              (Samples.live_world true) _ eq_refl) as [_ H].
  destruct (H eq_refl eq_refl) as (_ & Hstream & _).
  - left. discriminate.
  - exact Hstream.
Defined.

(** C7, refuted: with camera access denied the dialog that [handleOpen]
    opened is not closed again. *)
Lemma open_denied_leaves_dialog_open :
  media Samples.env_denied = None /\
  isOpen (st (dispatch Samples.env_denied ClickOpen start)) <> false.
Proof. split; [reflexivity | discriminate]. Qed.

(** C7, amended. When the camera request is denied or no camera is
    available, opening the scanner alerts the user that the camera
    cannot be accessed; the state then holds no stream it did not hold
    before (none, from the idle state), the readiness flag is false and
    no track has become live, but the dialog is open. *)
Theorem open_denied_alerts env w :
  media env = None ->
  let w' := dispatch env ClickOpen w in
  emitted w w' =
    [EvGetUserMedia; EvConsoleError (lit "Error accessing camera:");
     EvAlert (lit "Unable to access camera. Please make sure you have granted camera permissions.")] /\
  isOpen (st w') = true /\
  stream (st w') = stream (st w) /\
  (stream (st w) = None -> stream (st w') = None) /\
  isCameraReady (st w') = false /\
  capturedImage (st w') = capturedImage (st w) /\
  live w' = live w.
Proof.
  intros Hm w'. subst w'. unfold dispatch, run, handler.
  rewrite (handleOpen_denied _ _ Hm). cbn.
  repeat split; auto. apply emitted_app. reflexivity.
Qed.

Lemma open_denied_alerts_witness :
  media Samples.env_denied = None /\
  stream (st (dispatch Samples.env_denied ClickOpen start)) = None /\
  isCameraReady (st (dispatch Samples.env_denied ClickOpen start)) = false /\
  isOpen (st (dispatch Samples.env_denied ClickOpen start)) = true.
Proof.
  split; [reflexivity|].
  destruct (open_denied_alerts Samples.env_denied start eq_refl)
    as (_ & Hopen & _ & Hnone & Hready & _).
  split; [exact (Hnone eq_refl)|]. split; [exact Hready | exact Hopen].
Defined.

(** *** Leaving the scanner *)

(** Once the tracks of the stream held are ended, no track is live,
    provided every live track belonged to that stream. *)
Lemma owns_live_released w :
  owns_live w -> live w ∖ list_to_set (held_tracks (st w)) = ∅.
Proof.
  unfold owns_live. intros Hown. apply set_eq. intros t.
  rewrite elem_of_difference, elem_of_empty. split; [|tauto].
  intros [Hin Hout]. apply Hout, Hown, Hin.
Qed.

Lemma released_not_live (lv : gset nat) l :
  Forall (fun t => t ∉ lv ∖ list_to_set l) l.
Proof.
  apply Forall_forall. intros t Ht [_ Hn]%elem_of_difference.
  apply Hn. now apply elem_of_list_to_set.
Qed.

(** What a confirmation does to the dialog: it closes it exactly when a
    URL is reported, and then as [handleClose] does. *)
Lemma confirmImage_exit env w :
  let w' := snd (confirmImage (st w) env w) in
  isOpen (st w') = isOpen (st w) \/
  (isOpen (st w') = false /\ stream (st w') = None /\
   live w' = live w ∖ list_to_set (held_tracks (st w))).
Proof.
  cbv zeta. unfold confirmImage.
  destruct (truthy (capturedImage (st w))); [|now left].
  unfold try_catch_finally, try_catch, bind.
  unfold setIsProcessing at 1, modify.
  destruct (ocr_fails env) as [[]|] eqn:Hocr;
    unfold ocr_step, bind, emit, throw; rewrite ?Hocr; cbn; try now left.
  destruct (js_match urlRegex (ocr_text env)) as [[|url ms]|]; cbn; try now left.
  unfold call. rewrite handleClose_run. cbn. right.
  destruct (stream (st w)); auto.
Qed.

(** What a capture request does to the dialog, the image and the
    camera, whatever the surroundings answer. *)
Lemma captureImage_effect env w :
  let w' := snd (captureImage (st w) env w) in
  isOpen (st w') = isOpen (st w) /\
  (capturedImage (st w') = None \/ capturedImage (st w') = capturedImage (st w)) /\
  (isProcessing (st w') = false \/ isProcessing (st w') = isProcessing (st w)) /\
  ((stream (st w') = stream (st w) /\ live w' = live w) \/
   (stream (st w') = None /\ live w' = live w ∖ list_to_set (held_tracks (st w)))).
Proof.
  cbv zeta.
  destruct (video env) as [v|] eqn:Hv;
    [|rewrite captureImage_not_ready by (now left); cbn; repeat split; now auto].
  destruct (isCameraReady (st w)) eqn:Hready;
    [|rewrite captureImage_not_ready by (now right); cbn; repeat split; now auto].
  destruct (context2d env) eqn:Hctx;
    [|rewrite (captureImage_no_context _ _ _ v) by assumption; cbn;
      repeat split; now auto].
  destruct (N.eq_dec (readyState v) HAVE_ENOUGH_DATA) as [Hstate|Hstate];
    [|rewrite (captureImage_failure _ _ _ v) by auto; cbn; repeat split; now auto].
  destruct (le_lt_dec (length (toDataURL env (canvas_width v) (canvas_height v))) 100)
    as [Hsmall|Hbig].
  - rewrite (captureImage_failure _ _ _ v) by auto. cbn. repeat split; now auto.
  - rewrite (captureImage_success _ _ _ v) by auto. cbn.
    repeat split; auto. right. destruct (stream (st w)); auto.
Qed.

Lemma retakePhoto_granted env w ms :
  media env = Some ms ->
  retakePhoto env w =
  (Normal tt,
   {| st := {| isOpen := isOpen (st w); isProcessing := isProcessing (st w);
               stream := Some ms; capturedImage := None;
               isCameraReady := false |};
      live := live w ∪ list_to_set (getTracks ms);
      srcObject := match video env with Some _ => Some ms | None => srcObject w end;
      trace := trace w ++ [EvGetUserMedia] |}).
Proof.
  intros Hm. unfold retakePhoto, bind, call. unfold setCapturedImage at 1, modify.
  rewrite (startCamera_granted _ _ ms Hm). reflexivity.
Qed.

Lemma retakePhoto_denied env w :
  media env = None ->
  retakePhoto env w =
  (Normal tt,
   {| st := {| isOpen := isOpen (st w); isProcessing := isProcessing (st w);
               stream := stream (st w); capturedImage := None;
               isCameraReady := false |};
      live := live w; srcObject := srcObject w;
      trace := trace w ++
        [EvGetUserMedia; EvConsoleError (lit "Error accessing camera:");
         EvAlert (lit "Unable to access camera. Please make sure you have granted camera permissions.")] |}).
Proof.
  intros Hm. unfold retakePhoto, bind, call. unfold setCapturedImage at 1, modify.
  rewrite (startCamera_denied _ _ Hm). reflexivity.
Qed.

Lemma retakePhoto_effect env w :
  let w' := snd (retakePhoto env w) in
  isOpen (st w') = isOpen (st w) /\ capturedImage (st w') = None.
Proof.
  cbv zeta. destruct (media env) as [ms|] eqn:Hm.
  - rewrite (retakePhoto_granted _ _ ms Hm). cbn. auto.
  - rewrite (retakePhoto_denied _ _ Hm). cbn. auto.
Qed.

(** *** What holds in every world the user can bring about *)

Lemma owns_live_eq w w' :
  stream (st w') = stream (st w) -> live w' = live w ->
  owns_live w -> owns_live w'.
Proof. unfold owns_live, held_tracks. intros -> ->. auto. Qed.

Lemma owns_live_none w w' :
  stream (st w') = None ->
  live w' = live w ∖ list_to_set (held_tracks (st w)) ->
  owns_live w -> owns_live w'.
Proof.
  unfold owns_live at 2. intros Hs Hl Hown. rewrite Hl.
  rewrite (owns_live_released _ Hown). apply empty_subseteq.
Qed.

(** No reachable state holds a captured image or is processing; every
    live track belongs to the stream held; a closed dialog holds no
    stream. *)
Lemma reachable_invariant w :
  reachable w ->
  capturedImage (st w) = None /\
  isProcessing (st w) = false /\
  owns_live w /\
  (isOpen (st w) = false -> stream (st w) = None).
Proof.
  induction 1 as [|w env c Hreach (Himg & Hproc & Hown & Hclosed) Hen].
  - repeat split; auto. unfold owns_live. cbn. apply empty_subseteq.
  - assert (Hclose :
      let w' := run handleClose w in
      capturedImage (st w') = None /\ isProcessing (st w') = false /\
      owns_live w' /\ (isOpen (st w') = false -> stream (st w') = None)).
    { cbv zeta. unfold run. rewrite handleClose_run.
      assert (Hs : match stream (st w) with Some _ => None | None => stream (st w) end
                   = @None MediaStream) by (destruct (stream (st w)); reflexivity).
      cbn [snd st capturedImage isProcessing isOpen stream]. rewrite Hs.
      repeat split; auto. apply (owns_live_none w); auto; reflexivity. }
    unfold dispatch, handler. unfold run in *. cbv zeta in Hclose.
    destruct c; cbn in Hen; cbv beta.
    + apply negb_true_iff in Hen. specialize (Hclosed Hen).
      destruct (media env) as [ms|] eqn:Hm.
      * rewrite (handleOpen_granted _ _ ms Hm). cbn. repeat split; auto; [|discriminate].
        unfold owns_live in *. cbn. unfold held_tracks in Hown. rewrite Hclosed in Hown.
        intros t [Ht|Ht]%elem_of_union; [|exact Ht].
        apply Hown in Ht. cbn in Ht. now apply elem_of_empty in Ht.
      * rewrite (handleOpen_denied _ _ Hm). cbn. repeat split; auto; discriminate.
    + exact Hclose.
    + rewrite Himg. exact Hclose.
    + rewrite Himg. cbn [truthy].
      destruct (captureImage_effect env w) as (Ho & Hi & Hp & Hs).
      split; [destruct Hi; congruence|]. split; [destruct Hp; congruence|]. split.
      * destruct Hs as [[Hs Hl]|[Hs Hl]];
          [apply (owns_live_eq w) | apply (owns_live_none w)]; auto.
      * intros Hc. rewrite Ho in Hc. destruct Hs as [[Hs _]|[Hs _]]; [|exact Hs].
        rewrite Hs. auto.
    + unfold handleVideoReady, setIsCameraReady, modify. cbn. auto.
Qed.

(** The captured image view is never shown: in no reachable state is
    there an image to confirm or to retake. *)
Lemma reachable_no_image w :
  reachable w -> truthy (capturedImage (st w)) = false.
Proof. intros H. destruct (reachable_invariant w H) as (-> & _). reflexivity. Qed.

(** While the dialog is closed no track is live. *)
Lemma reachable_closed_released w :
  reachable w -> isOpen (st w) = false -> live w = ∅.
Proof.
  intros H Hc. destruct (reachable_invariant w H) as (_ & _ & Hown & Hnone).
  unfold owns_live, held_tracks in Hown. rewrite (Hnone Hc) in Hown.
  cbn in Hown. apply set_eq. intros t. rewrite elem_of_empty.
  split; [|tauto]. intros Ht. apply Hown in Ht. now apply elem_of_empty in Ht.
Qed.

End ScannerFacts.

(* ===================================================================== *)
(** ** Facts about the analysis page *)
(* ===================================================================== *)

Module RemoteFacts.
Import Remote.

Section Page.

Variable JsValue : Type.
Variable String_ : JsValue -> jsstring.
Variable toLowerCase : jsstring -> jsstring.

(** A submission whose response is not ok. *)
Lemma handleSubmit_not_ok url e (env : Env JsValue) w status body :
  fetch_answer env = Responds status body ->
  ok status = false ->
  handleSubmit String_ toLowerCase url e env w =
  (Normal tt,
   {| st := {| analysisResult := None; isLoading := false; url := Remote.url (st w) |};
      trace := trace w ++ prologue url e env ++
        [ EvToastError (lit "Analysis failed") (status_message status)
            (toast_id env) (lit "Try Again") (CallHandleSubmit url e) 5000;
          EvConsoleError (lit "Error analyzing website:")
            (JsError (status_message status)) ] |}).
Proof.
  intros Hans Hok. unfold handleSubmit, try_catch_finally, try_catch, bind, fetch, bind.
  unfold emit, setIsLoading, setAnalysisResult. cbn. rewrite Hans. cbn. rewrite Hok. cbn.
  unfold prologue. rewrite <- !app_assoc. reflexivity.
Qed.

(** A submission whose response is ok and has the expected shape. *)
Lemma handleSubmit_ok url e (env : Env JsValue) w status data :
  fetch_answer env = Responds status (inr data) ->
  ok status = true ->
  handleSubmit String_ toLowerCase url e env w =
  (Normal tt,
   {| st := {| analysisResult := Some (transform String_ toLowerCase data);
               isLoading := false; url := Remote.url (st w) |};
      trace := trace w ++ prologue url e env ++
        [ EvToastSuccess (lit "Analysis completed")
            (lit "Security check completed successfully.") (toast_id env) ] |}).
Proof.
  intros Hans Hok. unfold handleSubmit, try_catch_finally, try_catch, bind, fetch, bind.
  unfold emit, setIsLoading, setAnalysisResult. cbn. rewrite Hans. cbn. rewrite Hok. cbn.
  unfold prologue. rewrite <- !app_assoc. reflexivity.
Qed.

(** C6. For a response whose status is not in 200-299 the error
    notification describes the failure by the status: 404 "Website not
    found", 429 "Too many requests, please try again later", 400
    "Invalid URL format", any other "Failed to analyze website"; its
    action, labelled "Try Again", is the closure that calls the same
    [handleSubmit] with the same form event, and clicking it does just
    that. *)
Theorem failed_response_message url e (env : Env JsValue) w status body :
  fetch_answer env = Responds status body ->
  ok status = false ->
  let w' := snd (handleSubmit String_ toLowerCase url e env w) in
  emitted w w' =
    prologue url e env ++
    [ EvToastError (lit "Analysis failed") (status_message status)
        (toast_id env) (lit "Try Again") (CallHandleSubmit url e) 5000;
      EvConsoleError (lit "Error analyzing website:")
        (JsError (status_message status)) ] /\
  (status = 404 -> status_message status = lit "Website not found") /\
  (status = 429 ->
     status_message status = lit "Too many requests, please try again later") /\
  (status = 400 -> status_message status = lit "Invalid URL format") /\
  (status <> 404 -> status <> 429 -> status <> 400 ->
     status_message status = lit "Failed to analyze website") /\
  (forall env2,
     onClick String_ toLowerCase (CallHandleSubmit url e) env2
     = handleSubmit String_ toLowerCase url e env2) /\
  analysisResult (st w') = None /\
  isLoading (st w') = false.
Proof.
  intros Hans Hok w'. subst w'. rewrite (handleSubmit_not_ok _ _ _ _ _ _ Hans Hok).
  cbn [snd st analysisResult isLoading].
  split; [unfold emitted; cbn [trace]; apply drop_app_length|].
  split; [now intros ->|]. split; [now intros ->|]. split; [now intros ->|].
  split; [|repeat split].
  intros H404 H429 H400. unfold status_message.
  apply N.eqb_neq in H404, H429, H400. now rewrite H404, H429, H400.
Qed.

(** C9. A response that is ok and has the expected shape is mapped to a
    result in which each of the eight categories has the score
    [overall_score] of the response. *)
Theorem transform_copies_overall_score url e (env : Env JsValue) w status data :
  fetch_answer env = Responds status (inr data) ->
  ok status = true ->
  let w' := snd (handleSubmit String_ toLowerCase url e env w) in
  exists res,
    analysisResult (st w') = Some res /\
    res = transform String_ toLowerCase data /\
    score (ssl res) = overall_score data /\
    score (contentSecurity res) = overall_score data /\
    score (vulnerabilities res) = overall_score data /\
    score (phishing res) = overall_score data /\
    score (malware res) = overall_score data /\
    score (webAttacks res) = overall_score data /\
    score (certificateTransparency res) = overall_score data /\
    score (libraries res) = overall_score data /\
    length (categories res) = 8%nat /\
    Forall (fun c => score c = overall_score data) (categories res).
Proof.
  intros Hans Hok w'. subst w'. rewrite (handleSubmit_ok _ _ _ _ _ _ Hans Hok).
  exists (transform String_ toLowerCase data). cbn. repeat split. repeat constructor.
Qed.

End Page.

Lemma failed_response_message_witness :
  fetch_answer RemoteSamples.env_limited = Responds 429 (inl NonError) /\
  ok 429 = false /\
  emitted RemoteSamples.blank
    (snd (handleSubmit RemoteSamples.json_String RemoteSamples.lower
            (lit "https://example.com") 7%nat RemoteSamples.env_limited RemoteSamples.blank))
  = prologue (lit "https://example.com") 7%nat RemoteSamples.env_limited
    ++ [ EvToastError (lit "Analysis failed")
           (lit "Too many requests, please try again later") 1%nat
           (lit "Try Again") (CallHandleSubmit (lit "https://example.com") 7%nat) 5000;
         EvConsoleError (lit "Error analyzing website:")
           (JsError (lit "Too many requests, please try again later")) ].
Proof.
  split; [reflexivity|]. split; [reflexivity|].
  exact (proj1 (failed_response_message RemoteSamples.json RemoteSamples.json_String
                  RemoteSamples.lower (lit "https://example.com") 7%nat
                  RemoteSamples.env_limited RemoteSamples.blank 429 (inl NonError)
                  eq_refl eq_refl)).
Defined.

Lemma transform_copies_overall_score_witness :
  fetch_answer RemoteSamples.env_fine = Responds 200 (inr RemoteSamples.body) /\
  ok 200 = true /\
  exists res,
    analysisResult
      (st (snd (handleSubmit RemoteSamples.json_String RemoteSamples.lower
                  (lit "https://example.com") 7%nat RemoteSamples.env_fine
                  RemoteSamples.blank)))
    = Some res /\
    score (libraries res) = RemoteSamples.JNum 72.
Proof.
  split; [reflexivity|]. split; [reflexivity|].
  destruct (transform_copies_overall_score RemoteSamples.json RemoteSamples.json_String
              RemoteSamples.lower (lit "https://example.com") 7%nat
              RemoteSamples.env_fine RemoteSamples.blank 200 RemoteSamples.body
              eq_refl eq_refl)
    as (res & Hres & _ & _ & _ & _ & _ & _ & _ & _ & Hlib & _).
  exists res. split; [exact Hres | exact Hlib].
Defined.

End RemoteFacts.

(* ===================================================================== *)
(** ** Facts about the mock *)
(* ===================================================================== *)

Module MockFacts.
Import Mock.

(** A submission leaves a timer pending, so the next firing runs the
    callback that shows the result. *)
Lemma fire_handleSubmit e w :
  fire (handleSubmit e w) =
  timer_callback
    {| st := {| analysisResult := analysisResult (st w); isLoading := true |};
       timers := tl (timers w ++ [2000]);
       prevented := prevented w ++ [e] |}.
Proof.
  unfold fire, handleSubmit. cbn [timers st prevented].
  destruct (timers w) as [|t ts]; reflexivity.
Qed.

(** C8. Whatever the URL, the server action returns, and the page shows
    once its timer fires, the mock result: scores 85, 70 and 90 for
    [ssl], [contentSecurity] and [vulnerabilities], each with its two
    mocked issue strings, so no issue list is empty. *)
Theorem mock_result_is_fixed (url : jsstring) (e : nat) (w : World) :
  let res := analyzeWebsite url in
  score (ssl res) = 85 /\
  issues (ssl res) = [lit "Certificate expires in 30 days"; lit "TLS 1.2 supported"] /\
  score (contentSecurity res) = 70 /\
  issues (contentSecurity res) = [lit "Missing CSP header"; lit "X-Frame-Options not set"] /\
  score (vulnerabilities res) = 90 /\
  issues (vulnerabilities res)
    = [lit "No critical vulnerabilities found"; lit "Server version exposed"] /\
  Forall (fun c => issues c <> []) (categories res) /\
  res = analyzeWebsite (lit "https://example.com") /\
  analysisResult (st (fire (handleSubmit e w))) = Some res /\
  isLoading (st (fire (handleSubmit e w))) = false.
Proof.
  cbv zeta. rewrite fire_handleSubmit.
  repeat split; try reflexivity.
  repeat constructor; discriminate.
Qed.

End MockFacts.

(* ===================================================================== *)
(** ** More about the scanner widget *)
(* ===================================================================== *)

Module ScannerMore.
Import Scanner Url UrlFacts ScannerFacts ScannerRuns.

(** The events added, when the trace of the later world is the trace of
    the earlier one and more. *)
Ltac emitted_now :=
  unfold emitted; cbn [trace]; rewrite drop_app_length.

Lemma reported_app evs1 evs2 : reported (evs1 ++ evs2) = reported evs1 ++ reported evs2.
Proof.
  induction evs1 as [|ev evs1 IH]; [reflexivity|].
  destruct ev; simpl; rewrite IH; reflexivity.
Qed.

Lemma reported_track_stops l : reported (List.map EvTrackStop l) = [].
Proof. induction l; simpl; auto. Qed.

(** What [match] returns first is the first match of the text. *)
Lemma js_match_some_first text u ms :
  js_match urlRegex text = Some (u :: ms) -> exists pre, first_url text pre u.
Proof.
  intros Hm.
  assert (Hc : contains_url text).
  { unfold js_match in Hm.
    destruct (match_all urlRegex text 0) as [|u0 ms0] eqn:E; [discriminate|].
    destruct (match_all_head _ _ _ _ E) as (pre & suf & Hsplit & Hexec & _).
    destruct (exec_at_sound _ _ Hexec) as (Hu & rest & Hsuf & _).
    exists pre, u0, rest. split; [congruence | exact Hu]. }
  destruct (js_match_first _ Hc) as (pre & u' & ms' & Hm' & Hfirst).
  exists pre. congruence.
Qed.

(** The worlds a confirmation can end in, by what the engine answers. *)
Lemma confirmImage_failed env w stage :
  truthy (capturedImage (st w)) = true ->
  ocr_fails env = Some stage ->
  run (fun r => confirmImage r env) w =
  {| st := {| isOpen := isOpen (st w); isProcessing := false;
              stream := stream (st w); capturedImage := capturedImage (st w);
              isCameraReady := isCameraReady (st w) |};
     live := live w; srcObject := srcObject w;
     trace := trace w
              ++ take (S (stage_index stage))
                   (ocr_events (default [] (capturedImage (st w))))
              ++ [EvConsoleError (lit "Error recognizing URL:");
                  EvAlert (lit "Error recognizing URL. Please try again.")] |}.
Proof.
  intros Himg Hocr. unfold run, confirmImage. rewrite Himg.
  unfold try_catch_finally, try_catch, bind.
  unfold setIsProcessing at 1, modify.
  destruct stage; unfold ocr_step, bind, emit, throw; rewrite ?Hocr; cbn;
    unfold console_error, alert, emit; cbn; rewrite <- ?app_assoc; reflexivity.
Qed.

Lemma confirmImage_found env w u ms :
  truthy (capturedImage (st w)) = true ->
  ocr_fails env = None ->
  js_match urlRegex (ocr_text env) = Some (u :: ms) ->
  run (fun r => confirmImage r env) w =
  {| st := {| isOpen := false; isProcessing := false; stream := None;
              capturedImage := None; isCameraReady := false |};
     live := live w ∖ list_to_set (held_tracks (st w));
     srcObject := srcObject w;
     trace := trace w ++ ocr_events (default [] (capturedImage (st w)))
              ++ [EvConsoleLog (lit "Detected URL:") u; EvUrlDetected u]
              ++ List.map EvTrackStop (held_tracks (st w)) |}.
Proof.
  intros Himg Hocr Hmatch. unfold run, confirmImage. rewrite Himg.
  unfold try_catch_finally, try_catch, bind.
  unfold setIsProcessing at 1, modify.
  rewrite !(ocr_step_ok env _ _ _ Hocr). cbn [trace st live srcObject].
  rewrite Hmatch. unfold console_log, onUrlDetected, emit, call.
  rewrite handleClose_run. cbn.
  destruct (stream (st w)); rewrite <- !app_assoc; reflexivity.
Qed.

Lemma confirmImage_not_found env w :
  truthy (capturedImage (st w)) = true ->
  ocr_fails env = None ->
  js_match urlRegex (ocr_text env) = None ->
  run (fun r => confirmImage r env) w =
  {| st := {| isOpen := isOpen (st w); isProcessing := false;
              stream := stream (st w); capturedImage := capturedImage (st w);
              isCameraReady := isCameraReady (st w) |};
     live := live w; srcObject := srcObject w;
     trace := trace w ++ ocr_events (default [] (capturedImage (st w)))
              ++ [EvAlert (lit "No URL detected in the image. Please try again.")] |}.
Proof.
  intros Himg Hocr Hmatch. unfold run, confirmImage. rewrite Himg.
  unfold try_catch_finally, try_catch, bind.
  unfold setIsProcessing at 1, modify.
  rewrite !(ocr_step_ok env _ _ _ Hocr). cbn [trace st live srcObject].
  rewrite Hmatch. unfold alert, emit. cbn. rewrite <- !app_assoc. reflexivity.
Qed.

(** [match] never returns an empty array. *)
Lemma js_match_nonempty r text : js_match r text <> Some [].
Proof. unfold js_match. destruct (match_all r text 0); discriminate. Qed.

Lemma reported_ocr_prefix n image : reported (take n (ocr_events image)) = [].
Proof. do 6 (destruct n as [|n]; [reflexivity|]). reflexivity. Qed.

(** X1. When any call of the recognition worker fails, the worker's
    calls stop at the failing one, the user is alerted that the URL
    could not be recognized, no URL is reported, and the captured image,
    the stream, the dialog and the device stay as they were, so the
    user can confirm again or retake. *)
Theorem recognition_failure_alerts env w stage :
  truthy (capturedImage (st w)) = true ->
  ocr_fails env = Some stage ->
  let w' := run (fun r => confirmImage r env) w in
  emitted w w' =
    take (S (stage_index stage)) (ocr_events (default [] (capturedImage (st w))))
    ++ [EvConsoleError (lit "Error recognizing URL:");
        EvAlert (lit "Error recognizing URL. Please try again.")] /\
  reported (emitted w w') = [] /\
  capturedImage (st w') = capturedImage (st w) /\
  stream (st w') = stream (st w) /\
  isOpen (st w') = isOpen (st w) /\
  isCameraReady (st w') = isCameraReady (st w) /\
  isProcessing (st w') = false /\
  live w' = live w.
Proof.
  intros Himg Hocr w'. subst w'. rewrite (confirmImage_failed _ _ _ Himg Hocr).
  cbn [st live isOpen stream capturedImage isCameraReady isProcessing].
  emitted_now.
  repeat split. rewrite reported_app, reported_ocr_prefix. reflexivity.
Qed.

Lemma recognition_failure_alerts_witness :
  truthy (capturedImage (st Samples.captured_world)) = true /\
  ocr_fails Samples.env_no_worker = Some Recognize /\
  alerts (emitted Samples.captured_world
            (run (fun r => confirmImage r Samples.env_no_worker) Samples.captured_world))
  = [lit "Error recognizing URL. Please try again."] /\
  capturedImage
    (st (run (fun r => confirmImage r Samples.env_no_worker) Samples.captured_world))
  = Some Samples.frame.
Proof.
  split; [reflexivity|]. split; [reflexivity|].
  destruct (recognition_failure_alerts Samples.env_no_worker Samples.captured_world
              Recognize eq_refl eq_refl) as (Hev & _ & Himg & _).
  split; [rewrite Hev; reflexivity | exact Himg].
Defined.

(** X2. Whatever the engine answers, a confirmation reports at most one
    URL, and a URL it reports is the first match of the recognized
    text: it starts with [http://] or [https://] and holds no
    whitespace. *)
Theorem confirm_reports_only_urls env w :
  let w' := run (fun r => confirmImage r env) w in
  reported (emitted w w') = [] \/
  exists pre u,
    reported (emitted w w') = [u] /\
    first_url (ocr_text env) pre u /\
    url_pattern u.
Proof.
  cbv zeta.
  destruct (truthy (capturedImage (st w))) eqn:Himg.
  2:{ left. unfold run, confirmImage. rewrite Himg. cbn.
      unfold emitted. now rewrite drop_all. }
  destruct (ocr_fails env) as [stage|] eqn:Hocr.
  { left. rewrite (confirmImage_failed _ _ _ Himg Hocr).
    emitted_now.
    rewrite reported_app, reported_ocr_prefix. reflexivity. }
  destruct (js_match urlRegex (ocr_text env)) as [[|u ms]|] eqn:Hmatch.
  - exfalso. exact (js_match_nonempty _ _ Hmatch).
  - right. destruct (js_match_some_first _ _ _ Hmatch) as (pre & Hfirst).
    exists pre, u. rewrite (confirmImage_found _ _ _ _ Himg Hocr Hmatch).
    emitted_now.
    rewrite !reported_app, reported_track_stops. cbn.
    split; [reflexivity|]. split; [exact Hfirst|].
    destruct Hfirst as ((post & _ & Hu) & _). exact Hu.
  - left. rewrite (confirmImage_not_found _ _ Himg Hocr Hmatch).
    emitted_now. rewrite reported_app. reflexivity.
Qed.

(** X3. Opening the scanner with the camera granted opens the dialog on
    the granted stream, whose tracks are then live; the readiness flag
    is false, so from a state without image the Capture button is
    disabled, and it is enabled once the video has fired [loadeddata]. *)
Theorem open_granted_waits_for_video env env2 w ms :
  media env = Some ms ->
  capturedImage (st w) = None ->
  isProcessing (st w) = false ->
  let w' := dispatch env ClickOpen w in
  emitted w w' = [EvGetUserMedia] /\
  isOpen (st w') = true /\
  stream (st w') = Some ms /\
  isCameraReady (st w') = false /\
  live w' = live w ∪ list_to_set (getTracks ms) /\
  Forall (fun t => t ∈ live w') (getTracks ms) /\
  enabled (st w') ClickRight = false /\
  enabled (st (dispatch env2 VideoLoaded w')) ClickRight = true.
Proof.
  intros Hm Himg Hproc w'. subst w'. unfold dispatch, run, handler.
  rewrite (handleOpen_granted _ _ ms Hm).
  cbn [snd st live isOpen stream isCameraReady capturedImage isProcessing].
  split; [emitted_now; reflexivity|].
  repeat split.
  - apply Forall_forall. intros t Ht. apply elem_of_union. right.
    now apply elem_of_list_to_set.
  - cbn. rewrite Himg, Hproc. reflexivity.
  - cbn. rewrite Himg, Hproc. reflexivity.
Qed.

Lemma open_granted_waits_for_video_witness :
  media (Samples.env_text []) = Some Samples.cam /\
  capturedImage (st start) = None /\
  isProcessing (st start) = false /\
  stream (st (dispatch (Samples.env_text []) ClickOpen start)) = Some Samples.cam /\
  enabled (st (dispatch (Samples.env_text []) ClickOpen start)) ClickRight = false.
Proof.
  split; [reflexivity|]. split; [reflexivity|]. split; [reflexivity|].
  destruct (open_granted_waits_for_video (Samples.env_text []) (Samples.env_text [])
              start Samples.cam eq_refl eq_refl eq_refl)
    as (_ & _ & Hs & _ & _ & _ & Hdis & _).
  split; [exact Hs | exact Hdis].
Defined.

(** X4. Retaking discards the captured image and asks for the camera
    again: granted, the state holds the new stream, not yet ready, its
    tracks live; denied, the user is alerted and the stream is as
    before. Either way the dialog stays as it was and no track is
    stopped. *)
Theorem retake_discards_and_reopens env w :
  let w' := run (fun _ => retakePhoto env) w in
  capturedImage (st w') = None /\
  isCameraReady (st w') = false /\
  isOpen (st w') = isOpen (st w) /\
  live w ⊆ live w' /\
  match media env with
  | Some ms =>
      emitted w w' = [EvGetUserMedia] /\
      stream (st w') = Some ms /\
      live w' = live w ∪ list_to_set (getTracks ms)
  | None =>
      alerts (emitted w w') =
        [lit "Unable to access camera. Please make sure you have granted camera permissions."] /\
      stream (st w') = stream (st w) /\
      live w' = live w
  end.
Proof.
  cbv zeta. unfold run. destruct (media env) as [ms|] eqn:Hm.
  - rewrite (retakePhoto_granted _ _ ms Hm).
    cbn [snd st live isOpen stream isCameraReady capturedImage].
    repeat split; [apply union_subseteq_l | emitted_now; reflexivity].
  - rewrite (retakePhoto_denied _ _ Hm).
    cbn [snd st live isOpen stream isCameraReady capturedImage].
    repeat split; [reflexivity | emitted_now; reflexivity].
Qed.

(** X5. A capture requested on a ready video whose canvas gives no
    drawing context ends silently: nothing is alerted, the camera and
    the image stay as they were, and the processing flag is reset. *)
Theorem capture_without_context_is_silent env w v :
  video env = Some v ->
  isCameraReady (st w) = true ->
  context2d env = false ->
  let w' := run (fun r => captureImage r env) w in
  emitted w w' = [] /\
  isProcessing (st w') = false /\
  capturedImage (st w') = capturedImage (st w) /\
  stream (st w') = stream (st w) /\
  isCameraReady (st w') = isCameraReady (st w) /\
  isOpen (st w') = isOpen (st w) /\
  live w' = live w.
Proof.
  intros Hv Hready Hctx w'. subst w'. unfold run.
  rewrite (captureImage_no_context _ _ _ v Hv Hready Hctx). cbn.
  repeat split. unfold emitted. apply drop_all.
Qed.

Lemma capture_without_context_is_silent_witness :
  video Samples.env_no_context = Some Samples.vid /\
  isCameraReady (st (Samples.live_world true)) = true /\
  context2d Samples.env_no_context = false /\
  emitted (Samples.live_world true)
    (run (fun r => captureImage r Samples.env_no_context) (Samples.live_world true)) = [].
Proof.
  split; [reflexivity|]. split; [reflexivity|]. split; [reflexivity|].
  exact (proj1 (capture_without_context_is_silent Samples.env_no_context
                  (Samples.live_world true) Samples.vid eq_refl eq_refl eq_refl)).
Defined.

(** X6. A capture that passes every test (ready video, drawing context,
    enough buffered data, an encoded frame of more than 100 units)
    alerts nothing, stops every track of the stream held and clears the
    stream and the readiness flag; the image it set is cleared again by
    [stopCamera], so the state afterwards holds none. *)
Theorem capture_success_releases_camera env w v :
  video env = Some v ->
  isCameraReady (st w) = true ->
  context2d env = true ->
  readyState v = HAVE_ENOUGH_DATA ->
  (100 < length (toDataURL env (canvas_width v) (canvas_height v)))%nat ->
  let w' := run (fun r => captureImage r env) w in
  emitted w w' = List.map EvTrackStop (held_tracks (st w)) /\
  stream (st w') = None /\
  live w' = live w ∖ list_to_set (held_tracks (st w)) /\
  Forall (fun t => t ∉ live w') (held_tracks (st w)) /\
  isCameraReady (st w') = false /\
  capturedImage (st w') = None /\
  isProcessing (st w') = false /\
  isOpen (st w') = isOpen (st w).
Proof.
  intros Hv Hready Hctx Hstate Hlen w'. subst w'. unfold run.
  rewrite (captureImage_success _ _ _ v Hv Hready Hctx Hstate Hlen).
  cbn [snd st live isOpen stream isCameraReady capturedImage isProcessing].
  split; [emitted_now; reflexivity|].
  split; [destruct (stream (st w)); reflexivity|].
  repeat split. apply released_not_live.
Qed.

Lemma capture_success_releases_camera_witness :
  video (Samples.env_text []) = Some Samples.vid /\
  isCameraReady (st (Samples.live_world true)) = true /\
  context2d (Samples.env_text []) = true /\
  readyState Samples.vid = HAVE_ENOUGH_DATA /\
  (100 < length Samples.frame)%nat /\
  stream (st (run (fun r => captureImage r (Samples.env_text []))
                  (Samples.live_world true))) = None.
Proof.
  assert (Hlen : (100 < length Samples.frame)%nat) by (cbn; lia).
  split; [reflexivity|]. split; [reflexivity|]. split; [reflexivity|].
  split; [reflexivity|]. split; [exact Hlen|].
  destruct (capture_success_releases_camera (Samples.env_text [])
              (Samples.live_world true) Samples.vid eq_refl eq_refl eq_refl eq_refl Hlen)
    as (_ & Hs & _).
  exact Hs.
Defined.

(** One control operated on a state without image: still no image, and
    no URL among the events. *)
Lemma dispatch_no_image env c w :
  capturedImage (st w) = None ->
  capturedImage (st (dispatch env c w)) = None /\
  exists evs, trace (dispatch env c w) = trace w ++ evs /\ reported evs = [].
Proof.
  intros Himg. unfold dispatch, run, handler. rewrite Himg. cbn [truthy].
  destruct c.
  - destruct (media env) as [ms|] eqn:Hm.
    + rewrite (handleOpen_granted _ _ ms Hm). cbn. split; [exact Himg|]. eauto.
    + rewrite (handleOpen_denied _ _ Hm). cbn. split; [exact Himg|]. eauto.
  - rewrite handleClose_run. cbn. split; [reflexivity|].
    eexists. split; [reflexivity | apply reported_track_stops].
  - rewrite handleClose_run. cbn. split; [reflexivity|].
    eexists. split; [reflexivity | apply reported_track_stops].
  - destruct (video env) as [v|] eqn:Hv;
      [|rewrite captureImage_not_ready by (now left); cbn; split; [exact Himg|];
        exists []; now rewrite app_nil_r].
    destruct (isCameraReady (st w)) eqn:Hready;
      [|rewrite captureImage_not_ready by (now right); cbn; split; [exact Himg|];
        exists []; now rewrite app_nil_r].
    destruct (context2d env) eqn:Hctx;
      [|rewrite (captureImage_no_context _ _ _ v) by assumption; cbn;
        split; [exact Himg|]; exists []; now rewrite app_nil_r].
    destruct (N.eq_dec (readyState v) HAVE_ENOUGH_DATA) as [Hstate|Hstate];
      [|rewrite (captureImage_failure _ _ _ v) by auto; cbn; split; [reflexivity|];
        eexists; split; reflexivity].
    destruct (le_lt_dec (length (toDataURL env (canvas_width v) (canvas_height v))) 100)
      as [Hsmall|Hbig].
    + rewrite (captureImage_failure _ _ _ v) by auto. cbn. split; [reflexivity|].
      eexists. split; reflexivity.
    + rewrite (captureImage_success _ _ _ v) by auto. cbn. split; [reflexivity|].
      eexists. split; [reflexivity | apply reported_track_stops].
  - unfold handleVideoReady, setIsCameraReady, modify. cbn. split; [exact Himg|].
    exists []. now rewrite app_nil_r.
Qed.

(** X7. From a state without captured image, whatever controls the user
    operates and whatever the camera and the canvas answer, the state
    never holds an image: the right button always captures and the left
    one always cancels, never confirming or retaking, and no URL is ever
    reported to the caller. *)
Theorem image_never_held steps w :
  capturedImage (st w) = None ->
  let w' := dispatch_all steps w in
  capturedImage (st w') = None /\
  (forall env, handler (st w') env ClickRight = captureImage (st w') env) /\
  (forall env, handler (st w') env ClickLeft = handleClose (st w')) /\
  reported (emitted w w') = [].
Proof.
  intros Himg w'.
  assert (H : capturedImage (st w') = None /\
              exists evs, trace w' = trace w ++ evs /\ reported evs = []).
  { subst w'. revert w Himg. induction steps as [|[env c] steps IH]; intros w Himg.
    - split; [exact Himg|]. exists []. now rewrite app_nil_r.
    - cbn [dispatch_all fold_left].
      destruct (dispatch_no_image env c w Himg) as (Himg1 & evs1 & Htr1 & Hrep1).
      destruct (IH _ Himg1) as (Himg2 & evs2 & Htr2 & Hrep2).
      split; [exact Himg2|]. exists (evs1 ++ evs2). split.
      + unfold dispatch_all in Htr2. rewrite Htr2, Htr1. now rewrite app_assoc.
      + now rewrite reported_app, Hrep1, Hrep2. }
  destruct H as (Himg' & evs & Htr & Hrep).
  split; [exact Himg'|]. split; [|split].
  - intros env. unfold handler. now rewrite Himg'.
  - intros env. unfold handler. now rewrite Himg'.
  - unfold emitted. rewrite Htr, drop_app_length. exact Hrep.
Qed.

Lemma image_never_held_witness :
  capturedImage (st start) = None /\
  capturedImage
    (st (dispatch_all
           [ (Samples.env_text Samples.text_with_url, ClickOpen);
             (Samples.env_text Samples.text_with_url, VideoLoaded);
             (Samples.env_text Samples.text_with_url, ClickRight);
             (Samples.env_text Samples.text_with_url, ClickRight) ] start)) = None.
Proof.
  split; [reflexivity|].
  exact (proj1 (image_never_held _ start eq_refl)).
Defined.

(** X8. Taking each handler to run to its end before the next control
    is operated, and the camera button to be operable only while the
    dialog is closed: in every state the user can bring about from the
    start, every live track belongs to the stream the state holds, and
    while the dialog is closed the state holds no stream and no track is
    live. *)
Theorem closed_scanner_holds_no_camera w :
  reachable w ->
  owns_live w /\
  (isOpen (st w) = false -> stream (st w) = None /\ live w = ∅).
Proof.
  intros Hreach. destruct (reachable_invariant w Hreach) as (_ & _ & Hown & Hclosed).
  split; [exact Hown|]. intros Hc. split; [exact (Hclosed Hc)|].
  exact (reachable_closed_released w Hreach Hc).
Qed.

Lemma closed_scanner_holds_no_camera_witness :
  reachable (dispatch (Samples.env_text []) DialogClose Samples.opened_world) /\
  live (dispatch (Samples.env_text []) DialogClose Samples.opened_world) = ∅.
Proof.
  assert (Hreach : reachable (dispatch (Samples.env_text []) DialogClose Samples.opened_world)).
  { apply reach_step; [|reflexivity]. unfold Samples.opened_world.
    apply reach_step; [|reflexivity]. apply reach_step; [apply reach_start | reflexivity]. }
  split; [exact Hreach|].
  exact (proj2 (proj2 (closed_scanner_holds_no_camera _ Hreach) eq_refl)).
Defined.

(** X9. Closing twice is closing once: the second [handleClose] stops no
    track, emits nothing and leaves state and device as the first left
    them. *)
Theorem close_is_idempotent w :
  let w1 := run handleClose w in
  let w2 := run handleClose w1 in
  st w2 = st w1 /\ live w2 = live w1 /\ emitted w1 w2 = [].
Proof.
  cbv zeta. unfold run. rewrite !handleClose_run.
  cbn [snd st live stream held_tracks trace isProcessing].
  assert (Hs : match stream (st w) with Some _ => None | None => stream (st w) end
               = @None MediaStream) by (destruct (stream (st w)); reflexivity).
  rewrite Hs. unfold held_tracks at 1 3. cbn [stream].
  split; [reflexivity|]. split.
  - cbn. apply difference_empty_L.
  - unfold emitted. cbn [trace List.map]. rewrite app_nil_r. apply drop_all.
Qed.

End ScannerMore.

(* ===================================================================== *)
(** ** More about the analysis page *)
(* ===================================================================== *)

Module RemoteMore.
Import Remote RemoteRuns UrlFacts.

Section Page.

Variable JsValue : Type.
Variable String_ : JsValue -> jsstring.
Variable toLowerCase : jsstring -> jsstring.

(** A submission whose [try] block throws [error]. *)
Lemma handleSubmit_failure url e (env : Env JsValue) w error :
  failure env = Some error ->
  handleSubmit String_ toLowerCase url e env w =
  (Normal tt,
   {| st := {| analysisResult := None; isLoading := false; url := Remote.url (st w) |};
      trace := trace w ++ prologue url e env ++
        [ EvToastError (lit "Analysis failed") (error_description error)
            (toast_id env) (lit "Try Again") (CallHandleSubmit url e) 5000;
          EvConsoleError (lit "Error analyzing website:") error ] |}).
Proof.
  unfold failure. intros Hf.
  unfold handleSubmit, try_catch_finally, try_catch, bind, fetch, bind.
  unfold emit, setIsLoading, setAnalysisResult. cbn.
  destruct (fetch_answer env) as [err|status body]; cbn.
  - injection Hf as ->. unfold prologue. destruct error; cbn;
      rewrite <- !app_assoc; reflexivity.
  - destruct (ok status); cbn.
    + destruct body as [err|data]; [|discriminate]. injection Hf as ->.
      unfold prologue. destruct error; cbn; rewrite <- !app_assoc; reflexivity.
    + injection Hf as <-. unfold prologue. cbn. rewrite <- !app_assoc. reflexivity.
Qed.

(** A submission whose [try] block throws nothing. *)
Lemma handleSubmit_success url e (env : Env JsValue) w :
  failure env = None ->
  exists status data,
    fetch_answer env = Responds status (inr data) /\ ok status = true /\
    handleSubmit String_ toLowerCase url e env w =
    (Normal tt,
     {| st := {| analysisResult := Some (transform String_ toLowerCase data);
                 isLoading := false; url := Remote.url (st w) |};
        trace := trace w ++ prologue url e env ++
          [ EvToastSuccess (lit "Analysis completed")
              (lit "Security check completed successfully.") (toast_id env) ] |}).
Proof.
  unfold failure. intros Hf.
  destruct (fetch_answer env) as [err|status body] eqn:Hans; [discriminate|].
  destruct (ok status) eqn:Hok; [|discriminate].
  destruct body as [err|data]; [discriminate|].
  exists status, data. split; [reflexivity|]. split; [exact Hok|].
  apply (RemoteFacts.handleSubmit_ok _ _ _ _ _ _ _ _ _ Hans Hok).
Qed.

Lemma requested_prologue url e (env : Env JsValue) : requested (prologue url e env) = [url].
Proof. reflexivity. Qed.

Lemma requested_app evs1 evs2 :
  requested (evs1 ++ evs2) = requested evs1 ++ requested evs2.
Proof.
  induction evs1 as [|ev evs1 IH]; [reflexivity|].
  destruct ev; simpl; rewrite IH; reflexivity.
Qed.

(** The events of a failed submission, and its retry action. *)
Lemma failed_submission_events url e (env : Env JsValue) w error :
  failure env = Some error ->
  emitted w (snd (handleSubmit String_ toLowerCase url e env w)) =
    prologue url e env ++
    [ EvToastError (lit "Analysis failed") (error_description error)
        (toast_id env) (lit "Try Again") (CallHandleSubmit url e) 5000;
      EvConsoleError (lit "Error analyzing website:") error ].
Proof.
  intros Hf. rewrite (handleSubmit_failure _ _ _ _ _ Hf).
  unfold emitted. cbn [snd trace]. apply drop_app_length.
Qed.

(** What every submission does to the URL cell and how many requests it
    sends. *)
Lemma submission_request url e (env : Env JsValue) w :
  requested (emitted w (snd (handleSubmit String_ toLowerCase url e env w))) = [url] /\
  Remote.url (st (snd (handleSubmit String_ toLowerCase url e env w))) = Remote.url (st w).
Proof.
  destruct (failure env) as [error|] eqn:Hf.
  - rewrite (handleSubmit_failure _ _ _ _ _ Hf). cbn [snd st Remote.url].
    split; [|reflexivity]. unfold emitted. cbn [trace]. rewrite drop_app_length.
    rewrite requested_app. reflexivity.
  - destruct (handleSubmit_success url e env w Hf) as (status & data & _ & _ & ->).
    cbn [snd st Remote.url].
    split; [|reflexivity]. unfold emitted. cbn [trace]. rewrite drop_app_length.
    rewrite requested_app. reflexivity.
Qed.

(** X10. Whatever makes a submission fail (the request rejected, a
    status that is not ok, a body that cannot be read), the one closing
    notification is the error notification: it takes over the id of the
    loading notification, describes the failure by the message of the
    thrown error, or by "An unexpected error occurred" if what was
    thrown is no error object, and carries the retry action; the result
    stays cleared and the loading flag is reset. *)
Theorem failed_submission_describes_error url e (env : Env JsValue) w error :
  failure env = Some error ->
  let w' := snd (handleSubmit String_ toLowerCase url e env w) in
  emitted w w' =
    prologue url e env ++
    [ EvToastError (lit "Analysis failed") (error_description error)
        (toast_id env) (lit "Try Again") (CallHandleSubmit url e) 5000;
      EvConsoleError (lit "Error analyzing website:") error ] /\
  (forall message, error = JsError message -> error_description error = message) /\
  (error = NonError -> error_description error = lit "An unexpected error occurred") /\
  retry_action (emitted w w') = Some (CallHandleSubmit url e) /\
  analysisResult (st w') = None /\
  isLoading (st w') = false.
Proof.
  intros Hf w'. subst w'. rewrite (handleSubmit_failure _ _ _ _ _ Hf).
  cbn [snd st analysisResult isLoading].
  assert (Hev : emitted w
    {| st := {| analysisResult := None; isLoading := false; url := Remote.url (st w) |};
       trace := trace w ++ prologue url e env ++
         [ EvToastError (lit "Analysis failed") (error_description error)
             (toast_id env) (lit "Try Again") (CallHandleSubmit url e) 5000;
           EvConsoleError (lit "Error analyzing website:") error ] |}
    = prologue url e env ++
      [ EvToastError (lit "Analysis failed") (error_description error)
          (toast_id env) (lit "Try Again") (CallHandleSubmit url e) 5000;
        EvConsoleError (lit "Error analyzing website:") error ]).
  { unfold emitted. cbn [trace]. apply drop_app_length. }
  rewrite Hev. split; [reflexivity|].
  split; [now intros message ->|]. split; [now intros ->|].
  repeat split.
Qed.

(** X11. Every submission, however it ends, sends exactly one request,
    carrying the URL of the render it was made in, leaves the URL cell
    alone and ends with the loading flag reset; the result is the
    transformed body when nothing was thrown and is cleared otherwise. *)
Theorem submission_always_settles url e (env : Env JsValue) w :
  let w' := snd (handleSubmit String_ toLowerCase url e env w) in
  requested (emitted w w') = [url] /\
  Remote.url (st w') = Remote.url (st w) /\
  isLoading (st w') = false /\
  match failure env with
  | Some _ => analysisResult (st w') = None
  | None =>
      exists status data,
        fetch_answer env = Responds status (inr data) /\
        analysisResult (st w') = Some (transform String_ toLowerCase data)
  end.
Proof.
  cbv zeta. destruct (failure env) as [error|] eqn:Hf.
  - rewrite (handleSubmit_failure _ _ _ _ _ Hf). cbn [snd st analysisResult isLoading Remote.url].
    repeat split. unfold emitted. cbn [trace]. rewrite drop_app_length.
    rewrite requested_app. reflexivity.
  - destruct (handleSubmit_success url e env w Hf) as (status & data & Hans & _ & ->).
    cbn [snd st analysisResult isLoading Remote.url].
    repeat split; [|eauto]. unfold emitted. cbn [trace]. rewrite drop_app_length.
    rewrite requested_app. reflexivity.
Qed.

(** X12. The retry action of a failed submission belongs to the render
    the submission was made in: when the URL cell has changed since
    (typed, or detected by the scanner), clicking "Try Again" sends the
    old URL again and leaves the new one in the cell; and it ends as a
    submission of the old URL does. *)
Theorem retry_resubmits_original_url url e (env : Env JsValue) w error :
  failure env = Some error ->
  let w1 := snd (handleSubmit String_ toLowerCase url e env w) in
  exists cb,
    retry_action (emitted w w1) = Some cb /\
    forall detectedUrl env2,
      let w2 := snd (handleUrlDetected JsValue detectedUrl w1) in
      let w3 := snd (onClick String_ toLowerCase cb env2 w2) in
      Remote.url (st w2) = detectedUrl /\
      requested (emitted w2 w3) = [url] /\
      Remote.url (st w3) = detectedUrl /\
      w3 = snd (handleSubmit String_ toLowerCase url e env2 w2).
Proof.
  intros Hf w1. subst w1. rewrite (failed_submission_events _ _ _ _ _ Hf).
  exists (CallHandleSubmit url e). split; [reflexivity|].
  intros detectedUrl env2 w2 w3. subst w3. cbn [onClick].
  destruct (submission_request url e env2 w2) as (Hreq & Hurl).
  split; [reflexivity|]. split; [exact Hreq|]. split; [|reflexivity].
  rewrite Hurl. reflexivity.
Qed.

(** [includes] finds exactly the substrings. *)
Lemma includes_spec s sub : includes s sub = true <-> substring sub s.
Proof.
  unfold substring. induction s as [|c s IH].
  - simpl. destruct (strip_prefix sub []) as [t|] eqn:E.
    + apply strip_prefix_spec in E. split; [|reflexivity]. intros _.
      exists [], t. exact E.
    + split; [discriminate|]. intros (pre & post & H). exfalso.
      destruct pre; [|discriminate]. simpl in H.
      assert (Hs : strip_prefix sub [] = Some post) by now apply strip_prefix_spec.
      congruence.
  - simpl. destruct (strip_prefix sub (c :: s)) as [t|] eqn:E.
    + apply strip_prefix_spec in E. split; [|reflexivity]. intros _.
      exists [], t. exact E.
    + rewrite IH. split.
      * intros (pre & post & ->). exists (c :: pre), post. reflexivity.
      * intros (pre & post & H). destruct pre as [|d pre].
        -- exfalso. simpl in H.
           assert (Hs : strip_prefix sub (c :: s) = Some post) by now apply strip_prefix_spec.
           congruence.
        -- injection H as _ ->. exists pre, post. reflexivity.
Qed.

(** X13. Where the parts of a response end up: every XSS issue,
    suspicious pattern and CSRF issue becomes one issue of its category,
    in order and with its text as message, and every security header
    one issue "header: value" of [ssl]. A recommendation is shown under
    [contentSecurity] exactly when it contains "CSP" or "security", and
    under [libraries] exactly when it contains "upgrade" or "implement"
    (as written, case mattering); one that contains none of the four is
    shown nowhere among the two. *)
Theorem response_parts_routing (data : ResponseData JsValue) :
  let res := transform String_ toLowerCase data in
  messages (vulnerabilities res) = xss_check_issues data /\
  messages (phishing res) = suspicious_patterns (phishing_check data) /\
  messages (malware res) = suspicious_patterns (malware_check data) /\
  messages (webAttacks res) = csrf_check_issues data /\
  messages (ssl res)
    = List.map (fun hv => fst hv ++ lit ": " ++ String_ (snd hv)) (security_headers data) /\
  (forall rec,
     In rec (messages (contentSecurity res)) <->
     In rec (recommendations data) /\
     (substring (lit "CSP") rec \/ substring (lit "security") rec)) /\
  (forall rec,
     In rec (messages (libraries res)) <->
     In rec (recommendations data) /\
     (substring (lit "upgrade") rec \/ substring (lit "implement") rec)).
Proof.
  cbv zeta. unfold messages. cbn [transform issues vulnerabilities phishing malware
    webAttacks ssl contentSecurity libraries].
  rewrite !List.map_map. cbn [message].
  split; [apply List.map_id|]. split; [apply List.map_id|].
  split; [apply List.map_id|]. split; [apply List.map_id|].
  split; [apply List.map_ext; now intros [h v]|].
  split; intros rec.
  - rewrite List.map_id, List.filter_In, orb_true_iff, !includes_spec. reflexivity.
  - rewrite List.map_id, List.filter_In, orb_true_iff, !includes_spec. reflexivity.
Qed.

(** X14. Which severities a category can show. [vulnerabilities] only
    high; [webAttacks] and [libraries] only high or medium; [phishing]
    and [malware] one severity for all their issues, never info;
    [ssl] never low; [contentSecurity] never info; and
    [certificateTransparency] always exactly one issue, the status, high
    or info. *)
Theorem category_severities (data : ResponseData JsValue) :
  let res := transform String_ toLowerCase data in
  Forall (fun s => s = high) (severities (vulnerabilities res)) /\
  Forall (fun s => s = high \/ s = medium) (severities (webAttacks res)) /\
  Forall (fun s => s = high \/ s = medium) (severities (libraries res)) /\
  (exists s, s <> info /\ Forall (fun s' => s' = s) (severities (phishing res))) /\
  (exists s, s <> info /\ Forall (fun s' => s' = s) (severities (malware res))) /\
  Forall (fun s => s <> low) (severities (ssl res)) /\
  Forall (fun s => s <> info) (severities (contentSecurity res)) /\
  (exists i, issues (certificateTransparency res) = [i] /\
             message i = ct_check_ct_status data /\
             (severity i = high \/ severity i = info)).
Proof.
  cbv zeta. unfold severities. cbn [transform issues vulnerabilities phishing malware
    webAttacks ssl contentSecurity libraries certificateTransparency].
  rewrite !List.map_map. cbn [severity].
  assert (Hrisk : forall c, risk_severity c <> info).
  { intros c. unfold risk_severity.
    destruct (str_eqb _ _); [discriminate|]. destruct (str_eqb _ _); discriminate. }
  repeat split.
  - apply Forall_forall. intros s Hs. apply list_elem_of_In, List.in_map_iff in Hs.
    destruct Hs as (x & <- & _). reflexivity.
  - apply Forall_forall. intros s Hs. apply list_elem_of_In, List.in_map_iff in Hs.
    destruct Hs as (x & <- & _). destruct (includes _ _); auto.
  - apply Forall_forall. intros s Hs. apply list_elem_of_In, List.in_map_iff in Hs.
    destruct Hs as (x & <- & _). destruct (includes _ _); auto.
  - exists (risk_severity (phishing_check data)). split; [apply Hrisk|].
    apply Forall_forall. intros s Hs. apply list_elem_of_In, List.in_map_iff in Hs.
    destruct Hs as (x & <- & _). reflexivity.
  - exists (risk_severity (malware_check data)). split; [apply Hrisk|].
    apply Forall_forall. intros s Hs. apply list_elem_of_In, List.in_map_iff in Hs.
    destruct Hs as (x & <- & _). reflexivity.
  - apply Forall_forall. intros s Hs. apply list_elem_of_In, List.in_map_iff in Hs.
    destruct Hs as ([h v] & <- & _).
    destruct (str_eqb _ _); [discriminate|]. destruct (includes _ _); discriminate.
  - apply Forall_forall. intros s Hs. apply list_elem_of_In, List.in_map_iff in Hs.
    destruct Hs as (x & <- & _).
    destruct (includes _ _); [discriminate|]. destruct (includes _ _); discriminate.
  - eexists. split; [reflexivity|]. split; [reflexivity|]. cbn [severity].
    destruct (includes _ _); auto.
Qed.

End Page.

Lemma failed_submission_describes_error_witness :
  failure RemoteSamples.env_offline = Some (JsError (lit "Failed to fetch")) /\
  retry_action
    (emitted RemoteSamples.blank
       (snd (handleSubmit RemoteSamples.json_String RemoteSamples.lower
               (lit "https://example.com") 7%nat RemoteSamples.env_offline
               RemoteSamples.blank)))
  = Some (CallHandleSubmit (lit "https://example.com") 7%nat) /\
  isLoading
    (st (snd (handleSubmit RemoteSamples.json_String RemoteSamples.lower
                (lit "https://example.com") 7%nat RemoteSamples.env_offline
                RemoteSamples.blank)))
  = false.
Proof.
  split; [reflexivity|].
  destruct (failed_submission_describes_error RemoteSamples.json
              RemoteSamples.json_String RemoteSamples.lower
              (lit "https://example.com") 7%nat RemoteSamples.env_offline
              RemoteSamples.blank (JsError (lit "Failed to fetch")) eq_refl)
    as (_ & _ & _ & Hretry & _ & Hload).
  split; [exact Hretry | exact Hload].
Defined.

Lemma retry_resubmits_original_url_witness :
  failure RemoteSamples.env_offline = Some (JsError (lit "Failed to fetch")) /\
  exists cb,
    retry_action
      (emitted RemoteSamples.blank
         (snd (handleSubmit RemoteSamples.json_String RemoteSamples.lower
                 (lit "https://example.com") 7%nat RemoteSamples.env_offline
                 RemoteSamples.blank))) = Some cb /\
    requested
      (emitted
         (snd (handleUrlDetected RemoteSamples.json (lit "https://other.example")
                 (snd (handleSubmit RemoteSamples.json_String RemoteSamples.lower
                         (lit "https://example.com") 7%nat RemoteSamples.env_offline
                         RemoteSamples.blank))))
         (snd (onClick RemoteSamples.json_String RemoteSamples.lower cb
                 RemoteSamples.env_fine
                 (snd (handleUrlDetected RemoteSamples.json (lit "https://other.example")
                         (snd (handleSubmit RemoteSamples.json_String RemoteSamples.lower
                                 (lit "https://example.com") 7%nat
                                 RemoteSamples.env_offline RemoteSamples.blank)))))))
    = [lit "https://example.com"].
Proof.
  split; [reflexivity|].
  destruct (retry_resubmits_original_url RemoteSamples.json
              RemoteSamples.json_String RemoteSamples.lower
              (lit "https://example.com") 7%nat RemoteSamples.env_offline
              RemoteSamples.blank (JsError (lit "Failed to fetch")) eq_refl)
    as (cb & Hcb & H).
  exists cb. split; [exact Hcb|].
  exact (proj1 (proj2 (H (lit "https://other.example") RemoteSamples.env_fine))).
Defined.

End RemoteMore.

(* ===================================================================== *)
(** ** Facts about the display of a result *)
(* ===================================================================== *)

Module DisplayFacts.
Import Display.

Lemma num_ge_trans a b c :
  num_ge a b = true -> num_ge b c = true -> num_ge a c = true.
Proof.
  destruct a as [x| | |], b as [y| | |], c as [z| | |]; cbn; try congruence.
  rewrite !QArith_base.Qle_bool_iff. intros Hyx Hzy.
  exact (QArith_base.Qle_trans _ _ _ Hzy Hyx).
Qed.

Lemma num_ge_NaN a : num_ge NaN a = false.
Proof. reflexivity. Qed.

(** X15. The colour of a score follows its size: green from 90 on,
    yellow from 70 up to 90, red below 70 and for NaN; so a score at
    least as great as a green one is green, and one at most as great as
    a red one is red. *)
Theorem score_color_follows_score a b :
  num_ge b a = true ->
  (getScoreColorClass a = lit "bg-green-50" -> getScoreColorClass b = lit "bg-green-50") /\
  (getScoreColorClass b = lit "bg-red-50" -> getScoreColorClass a = lit "bg-red-50") /\
  (getScoreColorClass a = lit "bg-green-50" <-> num_ge a (of_Z 90) = true) /\
  (getScoreColorClass a = lit "bg-yellow-50"
     <-> num_ge a (of_Z 90) = false /\ num_ge a (of_Z 70) = true) /\
  (getScoreColorClass a = lit "bg-red-50" <-> num_ge a (of_Z 70) = false) /\
  getScoreColorClass NaN = lit "bg-red-50".
Proof.
  intros Hba.
  assert (H9070 : num_ge (of_Z 90) (of_Z 70) = true) by reflexivity.
  assert (Hcases : forall x,
    (getScoreColorClass x = lit "bg-green-50" <-> num_ge x (of_Z 90) = true) /\
    (getScoreColorClass x = lit "bg-yellow-50"
       <-> num_ge x (of_Z 90) = false /\ num_ge x (of_Z 70) = true) /\
    (getScoreColorClass x = lit "bg-red-50" <-> num_ge x (of_Z 70) = false)).
  { intros x. unfold getScoreColorClass.
    destruct (num_ge x (of_Z 90)) eqn:H90.
    - rewrite (num_ge_trans _ _ _ H90 H9070).
      repeat split; try discriminate; try tauto; intros []; discriminate.
    - destruct (num_ge x (of_Z 70)) eqn:H70;
        repeat split; try discriminate; try tauto; intros []; discriminate. }
  destruct (Hcases a) as (Hga & Hya & Hra). destruct (Hcases b) as (Hgb & _ & Hrb).
  split; [|split; [|repeat split; try tauto]].
  - intros Ha. apply Hgb. apply Hga in Ha. exact (num_ge_trans _ _ _ Hba Ha).
  - intros Hb. apply Hra. apply Hrb in Hb.
    destruct (num_ge a (of_Z 70)) eqn:H70; [|reflexivity].
    rewrite (num_ge_trans _ _ _ Hba H70) in Hb. discriminate.
Qed.

Lemma score_color_follows_score_witness :
  num_ge (of_Z 95) (of_Z 72) = true /\
  getScoreColorClass (of_Z 72) = lit "bg-yellow-50" /\
  (getScoreColorClass (of_Z 95) = lit "bg-red-50"
     -> getScoreColorClass (of_Z 72) = lit "bg-red-50").
Proof.
  split; [reflexivity|]. split; [reflexivity|].
  exact (proj1 (proj2 (score_color_follows_score (of_Z 72) (of_Z 95) eq_refl))).
Defined.

(** The three tests both severity switches make. *)
Lemma severity_switch_cases (a : jsstring) :
  (str_eqb a (lit "high") = true /\ str_eqb a (lit "medium") = false
     /\ str_eqb a (lit "low") = false) \/
  (str_eqb a (lit "high") = false /\ str_eqb a (lit "medium") = true
     /\ str_eqb a (lit "low") = false) \/
  (str_eqb a (lit "high") = false /\ str_eqb a (lit "medium") = false
     /\ str_eqb a (lit "low") = true) \/
  (str_eqb a (lit "high") = false /\ str_eqb a (lit "medium") = false
     /\ str_eqb a (lit "low") = false).
Proof.
  assert (Heq : forall x y, str_eqb x y = true -> x = y).
  { induction x as [|c x IH]; intros [|d y]; simpl; try discriminate; [reflexivity|].
    intros [Hc Hx]%andb_true_iff. apply N.eqb_eq in Hc. f_equal; auto. }
  destruct (str_eqb a (lit "high")) eqn:Hh.
  - apply Heq in Hh. subst a. left. repeat split.
  - destruct (str_eqb a (lit "medium")) eqn:Hm.
    + apply Heq in Hm. subst a. right. left. repeat split.
    + destruct (str_eqb a (lit "low")); tauto.
Qed.

(** X16. Colour and icon of an issue sort the severity strings alike:
    two strings get the same colour exactly when they get the same
    icon; the four severities of the interface get four colours and four
    icons; any other string is displayed as "info". *)
Theorem severity_display_agrees (a b : jsstring) :
  (getSeverityColorClass a = getSeverityColorClass b
     <-> getSeverityIcon a = getSeverityIcon b) /\
  (forall s1 s2 : Remote.Severity,
     getSeverityColorClass (severity_name s1) = getSeverityColorClass (severity_name s2)
     -> s1 = s2) /\
  (forall s1 s2 : Remote.Severity,
     getSeverityIcon (severity_name s1) = getSeverityIcon (severity_name s2) -> s1 = s2) /\
  (str_eqb a (lit "high") = false -> str_eqb a (lit "medium") = false ->
   str_eqb a (lit "low") = false ->
   getSeverityColorClass a = getSeverityColorClass (lit "info") /\
   getSeverityIcon a = getSeverityIcon (lit "info")).
Proof.
  split; [|split; [|split]].
  - unfold getSeverityColorClass, getSeverityIcon.
    destruct (severity_switch_cases a) as [(Ha1 & Ha2 & Ha3)|[(Ha1 & Ha2 & Ha3)|[(Ha1 & Ha2 & Ha3)|(Ha1 & Ha2 & Ha3)]]];
    destruct (severity_switch_cases b) as [(Hb1 & Hb2 & Hb3)|[(Hb1 & Hb2 & Hb3)|[(Hb1 & Hb2 & Hb3)|(Hb1 & Hb2 & Hb3)]]];
    rewrite ?Ha1, ?Ha2, ?Ha3, ?Hb1, ?Hb2, ?Hb3; cbv iota;
    rewrite ?Ha1, ?Ha2, ?Ha3, ?Hb1, ?Hb2, ?Hb3; cbv iota;
    rewrite ?Ha1, ?Ha2, ?Ha3, ?Hb1, ?Hb2, ?Hb3; cbv iota;
    split; intros H; try reflexivity; discriminate H.
  - intros [] []; cbn; intros H; try reflexivity; discriminate H.
  - intros [] []; cbn; intros H; try reflexivity; discriminate H.
  - intros Hh Hm Hl. unfold getSeverityColorClass, getSeverityIcon.
    rewrite Hh, Hm, Hl. split; reflexivity.
Qed.

Lemma severity_display_agrees_witness :
  str_eqb (lit "critical") (lit "high") = false /\
  str_eqb (lit "critical") (lit "medium") = false /\
  str_eqb (lit "critical") (lit "low") = false /\
  getSeverityColorClass (lit "critical") = lit "text-blue-600".
Proof.
  split; [reflexivity|]. split; [reflexivity|]. split; [reflexivity|].
  destruct (severity_display_agrees (lit "critical") (lit "critical"))
    as (_ & _ & _ & H).
  exact (proj1 (H eq_refl eq_refl eq_refl)).
Defined.

(** *** Titles *)

Lemma split_space_cons (s : jsstring) : exists w ws, split_space s = w :: ws.
Proof.
  induction s as [|c s (w & ws & IH)]; simpl; [eauto|].
  destruct (c =? 32); [eauto|]. rewrite IH. eauto.
Qed.

(** What is joined after the first word. *)
Lemma join_space_cons w ws :
  join_space (w :: ws) = w ++ match ws with [] => [] | _ => 32 :: join_space ws end.
Proof. destruct ws; simpl; [now rewrite app_nil_r | reflexivity]. Qed.

(** Splitting at the spaces and joining with spaces gives the string
    back. *)
Lemma join_split_space s : join_space (split_space s) = s.
Proof.
  induction s as [|c s IH]; [reflexivity|]. cbn [split_space].
  destruct (c =? 32) eqn:Hc.
  - apply N.eqb_eq in Hc. subst c.
    destruct (split_space_cons s) as (w & ws & Hs). rewrite Hs in *.
    rewrite (join_space_cons []). cbn [app]. now rewrite IH.
  - destruct (split_space_cons s) as (w & ws & Hs). rewrite Hs in *.
    rewrite (join_space_cons (c :: w)). rewrite (join_space_cons w) in IH.
    cbn [app]. now rewrite IH.
Qed.

(** After a key without spaces has got its spaces, every word but the
    first begins with a capital. *)
Lemma capital_words key :
  Forall (fun c => c <> 32) key ->
  Forall (fun word => starts_with_capital word = true)
    (tl (split_space (space_capitals key))).
Proof.
  induction 1 as [|c key Hc Hkey IH]; [constructor|].
  apply N.eqb_neq in Hc. cbn [space_capitals].
  destruct (split_space_cons (space_capitals key)) as (w & ws & Hs).
  rewrite Hs in IH. cbn [tl] in IH.
  destruct (is_upper c) eqn:Hup.
  - cbn [split_space]. change (32 =? 32) with true. cbv iota. rewrite Hc, Hs.
    cbn [tl]. constructor; [exact Hup | exact IH].
  - cbn [split_space]. rewrite Hc, Hs. exact IH.
Qed.

Section Titles.

Variable toUpperCase : jsstring -> jsstring.
Hypothesis toUpperCase_empty : toUpperCase [] = [].
Hypothesis toUpperCase_capital :
  forall c, is_upper c = true -> toUpperCase [c] = [c].

Lemma capitalize_capital_words ws :
  Forall (fun word => starts_with_capital word = true) ws ->
  List.map (fun word => toUpperCase (charAt0 word) ++ slice1 word) ws = ws.
Proof.
  induction 1 as [|w ws Hw _ IH]; [reflexivity|].
  cbn [List.map]. rewrite IH. f_equal.
  destruct w as [|c w]; [discriminate|]. cbn in Hw.
  cbn [charAt0 slice1 tl]. now rewrite (toUpperCase_capital c Hw).
Qed.

(** X17. The title of a key without spaces: a space before every
    capital, the first letter in upper case. A key that begins with a
    capital gets a leading space, and the empty key the empty title. *)
Theorem formatTitle_spaces_capitals key :
  Forall (fun c => c <> 32) key ->
  formatTitle toUpperCase key =
  match key with
  | [] => []
  | c :: key' =>
      if is_upper c then 32 :: c :: space_capitals key'
      else toUpperCase [c] ++ space_capitals key'
  end.
Proof.
  intros Hkey. unfold formatTitle.
  pose proof (capital_words key Hkey) as Hws.
  pose proof (join_split_space (space_capitals key)) as Hjoin.
  destruct (split_space_cons (space_capitals key)) as (w & ws & Hs).
  rewrite Hs in *. cbn [tl] in Hws. cbn [List.map].
  rewrite (capitalize_capital_words ws Hws).
  rewrite join_space_cons. rewrite (join_space_cons w) in Hjoin.
  destruct key as [|c key'].
  - cbn in Hs. injection Hs as <- <-. cbn. now rewrite toUpperCase_empty.
  - inversion Hkey as [|? ? Hc _]; subst. apply N.eqb_neq in Hc.
    cbn [space_capitals] in *. destruct (is_upper c) eqn:Hup.
    + cbn [split_space] in Hs. change (32 =? 32) with true in Hs. cbv iota in Hs.
      injection Hs as <- Hws'. cbn [charAt0 slice1 tl app] in *.
      rewrite toUpperCase_empty. exact Hjoin.
    + cbn [split_space] in Hs. rewrite Hc in Hs.
      destruct (split_space_cons (space_capitals key')) as (w' & ws' & Hs').
      rewrite Hs' in Hs. injection Hs as <- <-.
      cbn [charAt0 slice1 tl app] in *. injection Hjoin as Hjoin.
      rewrite <- app_assoc. now rewrite Hjoin.
Qed.

End Titles.

Lemma ascii_upper_capital c : is_upper c = true -> ascii_upper [c] = [c].
Proof.
  unfold is_upper, ascii_upper. intros [H1 H2]%andb_true_iff.
  apply N.leb_le in H1, H2. cbn [List.map].
  destruct (97 <=? c) eqn:H3; [|reflexivity].
  apply N.leb_le in H3. lia.
Qed.

Lemma formatTitle_spaces_capitals_witness :
  Forall (fun c => c <> 32) (lit "contentSecurity") /\
  ascii_upper [] = [] /\
  (forall c, is_upper c = true -> ascii_upper [c] = [c]) /\
  formatTitle ascii_upper (lit "contentSecurity") = lit "Content Security".
Proof.
  assert (Hkey : Forall (fun c => c <> 32) (lit "contentSecurity")).
  { repeat constructor; discriminate. }
  split; [exact Hkey|]. split; [reflexivity|]. split; [exact ascii_upper_capital|].
  rewrite (formatTitle_spaces_capitals ascii_upper eq_refl ascii_upper_capital _ Hkey).
  reflexivity.
Defined.

(** X18. Among the eight categories of a result each has an icon of its
    own, but for [malware] and [libraries], which share one; a key that
    is none of the eight gets the icon of [contentSecurity]. *)
Theorem category_icons_distinct_but_one :
  (forall k1 k2,
     In k1 category_keys -> In k2 category_keys ->
     getSecurityIcon k1 = getSecurityIcon k2 ->
     k1 = k2 \/
     (k1 = lit "malware" /\ k2 = lit "libraries") \/
     (k1 = lit "libraries" /\ k2 = lit "malware")) /\
  getSecurityIcon (lit "malware") = getSecurityIcon (lit "libraries") /\
  (forall k, Forall (fun key => str_eqb k key = false) category_keys ->
             getSecurityIcon k = getSecurityIcon (lit "contentSecurity")).
Proof.
  split; [|split; [reflexivity|]].
  - intros k1 k2 H1 H2.
    unfold category_keys in H1, H2. cbn [In] in H1, H2.
    repeat (destruct H1 as [<-|H1]); try contradiction;
    repeat (destruct H2 as [<-|H2]); try contradiction;
    intros H; try (now left); try (right; left; now split);
    try (right; right; now split); discriminate H.
  - intros k Hk. unfold category_keys in Hk.
    repeat match goal with H : Forall _ (_ :: _) |- _ =>
      let Hh := fresh "Hh" in let Ht := fresh "Ht" in
      inversion H as [|? ? Hh Ht]; subst; clear H end.
    unfold getSecurityIcon.
    repeat match goal with H : str_eqb k _ = false |- _ => rewrite H; clear H end.
    reflexivity.
Qed.

Lemma category_icons_distinct_but_one_witness :
  In (lit "ssl") category_keys /\
  In (lit "phishing") category_keys /\
  getSecurityIcon (lit "ssl") <> getSecurityIcon (lit "phishing").
Proof.
  assert (H1 : In (lit "ssl") category_keys) by (cbn; auto).
  assert (H2 : In (lit "phishing") category_keys) by (cbn; auto 10).
  split; [exact H1|]. split; [exact H2|]. intros Heq.
  destruct (proj1 category_icons_distinct_but_one _ _ H1 H2 Heq)
    as [H|[[H _]|[H _]]]; discriminate H.
Defined.

End DisplayFacts.

(* ===================================================================== *)
(** ** Facts about the first scanner widget *)
(* ===================================================================== *)

Module ScannerV1Facts.
Import ScannerV1.
Import Scanner(MediaStream, getTracks, Event, EvConsoleError, EvUrlDetected,
               EvGetUserMedia, EvTrackStop, EvAlert).

Lemma forEach_track_stop_v1 l w :
  forEach l track_stop w =
  (Normal tt, {| st := st w; live := live w ∖ list_to_set l;
                 srcObject := srcObject w;
                 trace := trace w ++ List.map EvTrackStop l |}).
Proof.
  revert w. induction l as [|t l IH]; intros [s lv so tr]; simpl.
  - unfold ret. f_equal. f_equal; [apply eq_sym, difference_empty_L | now rewrite app_nil_r].
  - unfold bind, track_stop at 1. simpl. rewrite IH. simpl.
    f_equal. f_equal; [apply difference_difference_l_L | now rewrite <- app_assoc].
Qed.

Lemma handleClose_run_v1 r w :
  handleClose r w =
  (Normal tt,
   {| st := {| isOpen := false;
               stream := match stream r with Some _ => None | None => stream (st w) end |};
      live := live w ∖ list_to_set (held_tracks r);
      srcObject := srcObject w;
      trace := trace w ++ List.map EvTrackStop (held_tracks r) |}).
Proof.
  unfold handleClose, bind, call, stopCamera, held_tracks. unfold setIsOpen at 1.
  destruct (stream r) as [ms|].
  - unfold bind. rewrite forEach_track_stop_v1. reflexivity.
  - destruct w as [s lv so tr]. unfold ret. cbn.
    f_equal. f_equal; [apply eq_sym, difference_empty_L | now rewrite app_nil_r].
Qed.

(** X19. The first widget's capture is a placeholder: with the video
    element and a drawing context there, it closes the dialog, stops
    every track of the stream held and clears the stream, and then
    reports the fixed URL "https://example.com", whatever the camera
    shows; without the video element or without a context it does
    nothing at all. *)
Theorem placeholder_capture_reports_example env w :
  (video env = true -> context2d env = true ->
   let w' := run (fun r => captureImage r env) w in
   emitted w w' =
     List.map EvTrackStop (held_tracks (st w))
     ++ [EvUrlDetected (lit "https://example.com")] /\
   isOpen (st w') = false /\
   stream (st w') = None /\
   live w' = live w ∖ list_to_set (held_tracks (st w))) /\
  (video env = false \/ context2d env = false ->
   run (fun r => captureImage r env) w = w).
Proof.
  split.
  - intros Hv Hctx w'. subst w'. unfold run, captureImage. rewrite Hv, Hctx. cbn [negb].
    unfold bind, call. rewrite handleClose_run_v1. unfold emit.
    cbn [snd st live isOpen stream trace].
    split; [|split; [reflexivity|split; [|reflexivity]]].
    + unfold emitted. cbn [trace]. rewrite <- app_assoc. apply drop_app_length.
    + destruct (stream (st w)); reflexivity.
  - intros [Hv|Hctx]; unfold run, captureImage.
    + rewrite Hv. reflexivity.
    + rewrite Hctx. destruct (video env); reflexivity.
Qed.

Lemma placeholder_capture_reports_example_witness :
  video env_ready = true /\ context2d env_ready = true /\
  emitted live_world (run (fun r => captureImage r env_ready) live_world)
  = [EvTrackStop 0; EvUrlDetected (lit "https://example.com")] /\
  live (run (fun r => captureImage r env_ready) live_world) = ∅.
Proof.
  split; [reflexivity|]. split; [reflexivity|].
  destruct (proj1 (placeholder_capture_reports_example env_ready live_world)
              eq_refl eq_refl) as (Hev & _ & _ & Hl).
  split; [exact Hev|]. rewrite Hl. reflexivity.
Defined.

(** X20. In the first widget a denied camera request is only logged:
    the dialog opens, no stream is held that was not held before, no
    track becomes live, and the user is alerted of nothing. *)
Theorem denied_camera_is_only_logged env w :
  media env = None ->
  let w' := run (fun _ => handleOpen env) w in
  emitted w w' = [EvGetUserMedia; EvConsoleError (lit "Error accessing camera:")] /\
  (forall msg, ~ In (EvAlert msg) (emitted w w')) /\
  isOpen (st w') = true /\
  stream (st w') = stream (st w) /\
  live w' = live w.
Proof.
  intros Hm w'.
  assert (Hrun : w' =
    {| st := {| isOpen := true; stream := stream (st w) |};
       live := live w; srcObject := srcObject w;
       trace := trace w ++ [EvGetUserMedia; EvConsoleError (lit "Error accessing camera:")] |}).
  { subst w'. unfold run, handleOpen, bind, call, startCamera, try_catch, bind, getUserMedia.
    rewrite Hm. unfold setIsOpen, emit. cbn. rewrite <- app_assoc. reflexivity. }
  assert (Hev : emitted w w'
                = [EvGetUserMedia; EvConsoleError (lit "Error accessing camera:")]).
  { rewrite Hrun. unfold emitted. cbn [trace]. apply drop_app_length. }
  rewrite Hev. rewrite Hrun. cbn [st live isOpen stream].
  repeat split. intros msg [H|[H|[]]]; discriminate H.
Qed.

Lemma denied_camera_is_only_logged_witness :
  media env_denied = None /\
  isOpen (st (run (fun _ => handleOpen env_denied)
                  {| st := {| isOpen := false; stream := None |};
                     live := ∅; srcObject := None; trace := [] |})) = true.
Proof.
  split; [reflexivity|].
  destruct (denied_camera_is_only_logged env_denied
              {| st := {| isOpen := false; stream := None |};
                 live := ∅; srcObject := None; trace := [] |} eq_refl)
    as (_ & _ & Hopen & _).
  exact Hopen.
Defined.

End ScannerV1Facts.

(* ===================================================================== *)
(** ** Facts about the page with the scanner *)
(* ===================================================================== *)

Module PageWithScannerFacts.
Import Remote PageWithScanner ScannerRuns.

Section Page.

Variable JsValue : Type.

Lemma deliver_all_cons ev evs (pw : World JsValue) :
  deliver_all (ev :: evs) pw = deliver_all evs (snd (deliver ev pw)).
Proof.
  unfold deliver_all. cbn [forEach]. unfold bind at 1.
  destruct ev; reflexivity.
Qed.

Lemma last_nonempty {A} (x : A) l d d' : List.last (x :: l) d = List.last (x :: l) d'.
Proof.
  revert x. induction l as [|y l IH]; intros x; [reflexivity|].
  change (List.last (y :: l) d = List.last (y :: l) d'). apply IH.
Qed.

(** What the events of the scanner do to the page. *)
Lemma deliver_all_effect evs (pw : World JsValue) :
  Remote.url (st (deliver_all evs pw))
    = List.last (reported evs) (Remote.url (st pw)) /\
  analysisResult (st (deliver_all evs pw)) = analysisResult (st pw) /\
  isLoading (st (deliver_all evs pw)) = isLoading (st pw) /\
  trace (deliver_all evs pw) = trace pw.
Proof.
  revert pw. induction evs as [|ev evs IH]; intros pw.
  - unfold deliver_all. cbn. auto.
  - rewrite deliver_all_cons. destruct (IH (snd (deliver ev pw))) as (Hu & Ha & Hl & Ht).
    rewrite Hu, Ha, Hl, Ht. clear IH Hu Ha Hl Ht.
    destruct ev; cbn [reported deliver snd st Remote.url analysisResult isLoading trace
                      handleUrlDetected setUrl ret]; auto.
    repeat split. destruct (reported evs) as [|x l]; [reflexivity|].
    change (List.last (x :: l) url0 = List.last (x :: l) (Remote.url (st pw))).
    apply last_nonempty.
Qed.

(** X22. Scanner and page together: when the user confirms a captured
    image whose recognized text contains a URL, the page's URL cell
    afterwards holds the first URL of the text, ready to be submitted;
    nothing is submitted yet. *)
Theorem confirmed_url_fills_input env w (pw : World JsValue) :
  truthy (Scanner.capturedImage (Scanner.st w)) = true ->
  Scanner.ocr_fails env = None ->
  Url.contains_url (Scanner.ocr_text env) ->
  let w' := Scanner.run (fun r => Scanner.confirmImage r env) w in
  let pw' := deliver_all (Scanner.emitted w w') pw in
  exists pre u,
    Url.first_url (Scanner.ocr_text env) pre u /\
    Remote.url (st pw') = u /\
    analysisResult (st pw') = analysisResult (st pw) /\
    isLoading (st pw') = isLoading (st pw) /\
    trace pw' = trace pw.
Proof.
  intros Himg Hocr Hurl w' pw'.
  destruct (UrlFacts.js_match_first _ Hurl) as (pre & u & ms & Hmatch & Hfirst).
  exists pre, u. split; [exact Hfirst|].
  assert (Hrep : reported (Scanner.emitted w w') = [u]).
  { subst w'. rewrite (ScannerMore.confirmImage_found _ _ _ _ Himg Hocr Hmatch).
    unfold Scanner.emitted. cbn [Scanner.trace]. rewrite drop_app_length.
    rewrite !ScannerMore.reported_app, ScannerMore.reported_track_stops. reflexivity. }
  subst pw'. destruct (deliver_all_effect (Scanner.emitted w w') pw) as (Hu & Ha & Hl & Ht).
  rewrite Hu, Hrep. auto.
Qed.

End Page.

Lemma confirmed_url_fills_input_witness :
  truthy (Scanner.capturedImage (Scanner.st Samples.captured_world)) = true /\
  Scanner.ocr_fails (Samples.env_text Samples.text_with_url) = None /\
  Url.contains_url (Scanner.ocr_text (Samples.env_text Samples.text_with_url)) /\
  Remote.url
    (st (deliver_all
           (Scanner.emitted Samples.captured_world
              (Scanner.run
                 (fun r => Scanner.confirmImage r (Samples.env_text Samples.text_with_url))
                 Samples.captured_world))
           RemoteSamples.empty_input))
  = lit "https://example.com".
Proof.
  split; [reflexivity|]. split; [reflexivity|].
  split; [exact ScannerFacts.text_with_url_contains|].
  destruct (confirmed_url_fills_input RemoteSamples.json
              (Samples.env_text Samples.text_with_url) Samples.captured_world
              RemoteSamples.empty_input eq_refl eq_refl
              ScannerFacts.text_with_url_contains)
    as (pre & u & _ & Hu & _).
  reflexivity.
Defined.

End PageWithScannerFacts.

(* ===================================================================== *)
(** ** More about the mock page *)
(* ===================================================================== *)

Module MockMore.
Import Mock MockRuns.

Lemma submit_all_effect es w :
  timers (submit_all es w) = timers w ++ repeat 2000 (length es) /\
  prevented (submit_all es w) = prevented w ++ es /\
  analysisResult (st (submit_all es w)) = analysisResult (st w) /\
  (es <> [] -> isLoading (st (submit_all es w)) = true).
Proof.
  revert w. induction es as [|e es IH]; intros w.
  - cbn. rewrite !app_nil_r. repeat split. congruence.
  - cbn [submit_all fold_left].
    destruct (IH (handleSubmit e w)) as (Ht & Hp & Ha & Hl). unfold submit_all in *.
    rewrite Ht, Hp, Ha. cbn [handleSubmit timers prevented st analysisResult length repeat].
    rewrite <- !app_assoc. repeat split. intros _.
    destruct es as [|e' es]; [reflexivity|]. apply Hl. discriminate.
Qed.

Lemma timers_fire w : timers (fire w) = tl (timers w).
Proof. unfold fire. destruct (timers w) as [|t ts] eqn:E; [now rewrite E | reflexivity]. Qed.

Lemma prevented_fire w : prevented (fire w) = prevented w.
Proof. unfold fire. destruct (timers w); reflexivity. Qed.

Lemma tl_drop {A} n (l : list A) : tl (drop n l) = drop (S n) l.
Proof.
  revert l. induction n as [|n IH]; intros [|x l]; try reflexivity.
  cbn [drop]. rewrite IH. reflexivity.
Qed.

Lemma iter_fire n w :
  timers (Nat.iter n fire w) = drop n (timers w) /\
  prevented (Nat.iter n fire w) = prevented w.
Proof.
  induction n as [|n [IHt IHp]]; [split; reflexivity|].
  rewrite Nat.iter_succ, timers_fire, prevented_fire, IHt, IHp.
  split; [apply tl_drop | reflexivity].
Qed.

(** A timer that fires shows the mock result and resets the loading
    flag. *)
Lemma fire_shows_result w url :
  timers w <> [] ->
  analysisResult (st (fire w)) = Some (analyzeWebsite url) /\
  isLoading (st (fire w)) = false.
Proof.
  intros Hne. unfold fire. destruct (timers w); [congruence|]. split; reflexivity.
Qed.

(** X23. On the mock page every submission prevents the default of its
    event and schedules one timer of 2000 ms, leaving the displayed
    result as it is and the loading flag set; when all pending timers
    have fired none is left, and after at least one submission the mock
    result is displayed and the loading flag reset. *)
Theorem submissions_then_timers es w url :
  let w1 := submit_all es w in
  let w2 := fire_all w1 in
  timers w1 = timers w ++ repeat 2000 (length es) /\
  prevented w1 = prevented w ++ es /\
  analysisResult (st w1) = analysisResult (st w) /\
  (es <> [] -> isLoading (st w1) = true) /\
  timers w2 = [] /\
  prevented w2 = prevented w1 /\
  (es <> [] ->
   analysisResult (st w2) = Some (analyzeWebsite url) /\ isLoading (st w2) = false).
Proof.
  cbv zeta. destruct (submit_all_effect es w) as (Ht & Hp & Ha & Hl).
  split; [exact Ht|]. split; [exact Hp|]. split; [exact Ha|]. split; [exact Hl|].
  unfold fire_all. destruct (iter_fire (length (timers (submit_all es w))) (submit_all es w))
    as [Hti Hpi].
  split; [rewrite Hti; apply drop_all|]. split; [exact Hpi|].
  intros Hne.
  destruct (length (timers (submit_all es w))) as [|n] eqn:Hlen.
  - exfalso. rewrite Ht, length_app, repeat_length in Hlen.
    destruct es; [congruence | cbn in Hlen; lia].
  - rewrite Nat.iter_succ. apply fire_shows_result.
    destruct (iter_fire n (submit_all es w)) as [Htn _]. rewrite Htn.
    intros Hnil. apply (f_equal length) in Hnil. rewrite length_drop in Hnil.
    cbn in Hnil. lia.
Qed.

Lemma submissions_then_timers_witness :
  [3%nat; 4%nat] <> [] /\
  isLoading (st (submit_all [3%nat; 4%nat]
                   {| st := {| analysisResult := None; isLoading := false |};
                      timers := []; prevented := [] |})) = true /\
  isLoading (st (fire_all (submit_all [3%nat; 4%nat]
                   {| st := {| analysisResult := None; isLoading := false |};
                      timers := []; prevented := [] |}))) = false.
Proof.
  assert (Hne : [3%nat; 4%nat] <> []) by discriminate.
  split; [exact Hne|].
  destruct (submissions_then_timers [3%nat; 4%nat]
              {| st := {| analysisResult := None; isLoading := false |};
                 timers := []; prevented := [] |} [])
    as (_ & _ & _ & Hl1 & _ & _ & H2).
  split; [exact (Hl1 Hne) | exact (proj2 (H2 Hne))].
Defined.

End MockMore.

(* ===================================================================== *)
(** ** Leaving the scanner, and failing in it *)
(* ===================================================================== *)

Module ScannerExits.
Import Scanner Url UrlFacts ScannerFacts ScannerRuns ScannerMore ScannerAsync.




(** The two halves of [handleOpen] make up the whole. *)
Lemma handleOpen_halves env w :
  (handleOpen_request ;; startCamera_resume env) w = handleOpen env w.
Proof.
  destruct (media env) as [ms|] eqn:Hm.
  - rewrite (handleOpen_granted _ _ ms Hm).
    unfold handleOpen_request, startCamera_resume, bind. rewrite Hm.
    unfold setIsOpen, setIsCameraReady, setStream, modify, emit, grant. cbn.
    destruct (video env); reflexivity.
  - rewrite (handleOpen_denied _ _ Hm).
    unfold handleOpen_request, startCamera_resume, bind. rewrite Hm.
    unfold setIsOpen, setIsCameraReady, modify, console_error, alert, emit. cbn.
    rewrite <- !app_assoc. reflexivity.
Qed.





End ScannerExits.
